(** * Run orchestrator of projectlib: a shallow embedding and its properties

    The model follows [apps/desktop/src/lib/run/service.ts] (RunService and
    ShellAdapter), the terminal registry [TerminalService] and the run tables of
    [packages/db/src/index.ts]. JavaScript strings are sequences of UTF-16 code
    units, written [jsstr] = [list N]. Asynchronous functions are programs of a
    small free monad whose [Yield] marks every [await]; a scheduler interleaves
    such programs the way the JavaScript job queue does. *)

From Stdlib Require Import ZArith Lia.
From Stdlib Require Import Strings.String Strings.Ascii.
From stdpp Require Import base gmap list.

(* ================================================================== *)
(** * JavaScript strings *)

Definition jsstr := list N.

(** A string literal written in ASCII, as a sequence of code units. *)
Fixpoint s2u (s : string) : jsstr :=
  match s with
  | EmptyString => []
  | String a r => N_of_ascii a :: s2u r
  end.

(** JavaScript truthiness of a [string | undefined] value. *)
Definition truthy_str (o : option jsstr) : bool :=
  match o with
  | Some (_ :: _) => true
  | _ => false
  end.

(** [a ?? b] *)
Definition nullish {A} (a : option A) (b : A) : A :=
  match a with Some x => x | None => b end.

(** A [Record<string, string>]: own properties in enumeration order. *)
Definition env := list (jsstr * jsstr).

(* ================================================================== *)
(** * JSON.stringify and JSON.parse on the values the run tables store *)

Module Json.
Local Open Scope N_scope.
Local Set Warnings "-register-all".

Definition is_high (c : N) : bool := (55296 <=? c) && (c <=? 56319).
Definition is_low (c : N) : bool := (56320 <=? c) && (c <=? 57343).

(** The single-character escapes of QuoteJSONString (ECMA-262, table
    "JSON Single Character Escape Sequences"). *)
Definition escape_table (c : N) : option N :=
  if c =? 8 then Some 98
  else if c =? 9 then Some 116
  else if c =? 10 then Some 110
  else if c =? 12 then Some 102
  else if c =? 13 then Some 114
  else if c =? 34 then Some 34
  else if c =? 92 then Some 92
  else None.

Definition hex_digit (d : N) : N := if d <? 10 then 48 + d else 87 + d.

(** UnicodeEscape: [\u] and four lower-case hexadecimal digits. *)
Definition unicode_escape (c : N) : jsstr :=
  [92; 117; hex_digit (N.modulo (c / 4096) 16); hex_digit (N.modulo (c / 256) 16);
   hex_digit (N.modulo (c / 16) 16); hex_digit (N.modulo c 16)].

(** QuoteJSONString without the surrounding quotes: code points are read
    from the code units, a surrogate pair is copied, a lone surrogate and a
    control character are escaped. *)
Fixpoint quote_units (s : jsstr) : jsstr :=
  match s with
  | [] => []
  | c :: rest =>
      match escape_table c with
      | Some e => 92 :: e :: quote_units rest
      | None =>
          if c <? 32 then unicode_escape c ++ quote_units rest
          else if is_high c then
            match rest with
            | d :: rest' =>
                if is_low d then c :: d :: quote_units rest'
                else unicode_escape c ++ quote_units rest
            | [] => unicode_escape c
            end
          else if is_low c then unicode_escape c ++ quote_units rest
          else c :: quote_units rest
      end
  end.

Definition quote (s : jsstr) : jsstr := 34 :: quote_units s ++ [34].

Fixpoint join_comma (l : list jsstr) : jsstr :=
  match l with
  | [] => []
  | [x] => x
  | x :: r => x ++ 44 :: join_comma r
  end.

(** [JSON.stringify] of a [string[]]. *)
Definition stringify_array (l : list jsstr) : jsstr :=
  91 :: join_comma (map quote l) ++ [93].

(** [JSON.stringify] of a [Record<string, string>]. *)
Definition stringify_record (e : env) : jsstr :=
  123 :: join_comma (map (fun kv => quote kv.1 ++ 58 :: quote kv.2) e) ++ [125].

(** JSON values as [JSON.parse] builds them. Numbers are not lexed: a text
    holding one is refused, which the string schemas below would refuse too. *)
Inductive json :=
| JNull
| JBool (b : bool)
| JStr (s : jsstr)
| JArr (l : list json)
| JObj (l : list (jsstr * json)).

Definition is_ws (c : N) : bool := (c =? 32) || (c =? 9) || (c =? 10) || (c =? 13).

Fixpoint skip_ws (s : jsstr) : jsstr :=
  match s with
  | c :: r => if is_ws c then skip_ws r else s
  | [] => []
  end.

Definition hex_val (c : N) : option N :=
  if (48 <=? c) && (c <=? 57) then Some (c - 48)
  else if (97 <=? c) && (c <=? 102) then Some (c - 87)
  else if (65 <=? c) && (c <=? 70) then Some (c - 55)
  else None.

Definition hex4 (a b c d : N) : option N :=
  match hex_val a, hex_val b, hex_val c, hex_val d with
  | Some x, Some y, Some z, Some w => Some (x * 4096 + y * 256 + z * 16 + w)
  | _, _, _, _ => None
  end.

Definition unescape (e : N) : option N :=
  if e =? 34 then Some 34
  else if e =? 92 then Some 92
  else if e =? 47 then Some 47
  else if e =? 98 then Some 8
  else if e =? 102 then Some 12
  else if e =? 110 then Some 10
  else if e =? 114 then Some 13
  else if e =? 116 then Some 9
  else None.

(** The body of a JSON string, after its opening quote: the decoded code
    units and the text after the closing quote. *)
Fixpoint parse_str (s : jsstr) : option (jsstr * jsstr) :=
  match s with
  | [] => None
  | c :: r =>
      if c =? 34 then Some ([], r)
      else if c =? 92 then
        match r with
        | e :: r' =>
            if e =? 117 then
              match r' with
              | h1 :: h2 :: h3 :: h4 :: r'' =>
                  match hex4 h1 h2 h3 h4, parse_str r'' with
                  | Some u, Some (str, rest) => Some (u :: str, rest)
                  | _, _ => None
                  end
              | _ => None
              end
            else
              match unescape e, parse_str r' with
              | Some u, Some (str, rest) => Some (u :: str, rest)
              | _, _ => None
              end
        | [] => None
        end
      else if c <? 32 then None
      else
        match parse_str r with
        | Some (str, rest) => Some (c :: str, rest)
        | None => None
        end
  end.

(** Properties of a parsed object: a repeated name overwrites the earlier
    value in place (CreateDataProperty). *)
Fixpoint obj_set (k : jsstr) (v : json) (o : list (jsstr * json)) : list (jsstr * json) :=
  match o with
  | [] => [(k, v)]
  | (k', v') :: r => if decide (k = k') then (k, v) :: r else (k', v') :: obj_set k v r
  end.

Definition obj_build (l : list (jsstr * json)) : list (jsstr * json) :=
  fold_left (fun acc kv => obj_set kv.1 kv.2 acc) l [].

Fixpoint parse_value (fuel : nat) (s : jsstr) {struct fuel} : option (json * jsstr) :=
  match fuel with
  | O => None
  | S f =>
      match skip_ws s with
      | c :: r =>
          if c =? 34 then
            match parse_str r with Some (str, r') => Some (JStr str, r') | None => None end
          else if c =? 91 then
            match skip_ws r with
            | d :: r' =>
                if d =? 93 then Some (JArr [], r')
                else match parse_elems f r with
                     | Some (l, r'') => Some (JArr l, r'')
                     | None => None
                     end
            | [] => None
            end
          else if c =? 123 then
            match skip_ws r with
            | d :: r' =>
                if d =? 125 then Some (JObj [], r')
                else match parse_members f r with
                     | Some (l, r'') => Some (JObj (obj_build l), r'')
                     | None => None
                     end
            | [] => None
            end
          else
            match r with
            | 117 :: 108 :: 108 :: r' => if c =? 110 then Some (JNull, r') else None
            | 114 :: 117 :: 101 :: r' => if c =? 116 then Some (JBool true, r') else None
            | 97 :: 108 :: 115 :: 101 :: r' => if c =? 102 then Some (JBool false, r') else None
            | _ => None
            end
      | [] => None
      end
  end
with parse_elems (fuel : nat) (s : jsstr) {struct fuel} : option (list json * jsstr) :=
  match fuel with
  | O => None
  | S f =>
      match parse_value f s with
      | Some (v, r) =>
          match skip_ws r with
          | c :: r' =>
              if c =? 44 then
                match parse_elems f r' with
                | Some (vs, r'') => Some (v :: vs, r'')
                | None => None
                end
              else if c =? 93 then Some ([v], r')
              else None
          | [] => None
          end
      | None => None
      end
  end
with parse_members (fuel : nat) (s : jsstr) {struct fuel} : option (list (jsstr * json) * jsstr) :=
  match fuel with
  | O => None
  | S f =>
      match skip_ws s with
      | c :: r =>
          if c =? 34 then
            match parse_str r with
            | Some (k, r1) =>
                match skip_ws r1 with
                | d :: r2 =>
                    if d =? 58 then
                      match parse_value f r2 with
                      | Some (v, r3) =>
                          match skip_ws r3 with
                          | e :: r4 =>
                              if e =? 44 then
                                match parse_members f r4 with
                                | Some (l, r5) => Some ((k, v) :: l, r5)
                                | None => None
                                end
                              else if e =? 125 then Some ([(k, v)], r4)
                              else None
                          | [] => None
                          end
                      | None => None
                      end
                    else None
                | [] => None
                end
            | None => None
            end
          else None
      | [] => None
      end
  end.

(** [JSON.parse]: [None] is a thrown SyntaxError. *)
Definition parse (text : jsstr) : option json :=
  match parse_value (S (length text)) text with
  | Some (v, r) => match skip_ws r with [] => Some v | _ => None end
  | None => None
  end.

(** [z.array(z.string()).parse] *)
Fixpoint strings_of (l : list json) : option (list jsstr) :=
  match l with
  | [] => Some []
  | JStr s :: r => match strings_of r with Some r' => Some (s :: r') | None => None end
  | _ => None
  end.

Definition string_array_schema (v : json) : option (list jsstr) :=
  match v with JArr l => strings_of l | _ => None end.

(** [z.record(z.string(), z.string()).parse] *)
Fixpoint string_members (l : list (jsstr * json)) : option env :=
  match l with
  | [] => Some []
  | (k, JStr s) :: r => match string_members r with Some r' => Some ((k, s) :: r') | None => None end
  | _ => None
  end.

Definition string_record_schema (v : json) : option env :=
  match v with JObj l => string_members l | _ => None end.

(** Decoding [UnicodeEscape c] gives [c] back. *)
Definition hex_roundtrip (n : N) : bool :=
  match unicode_escape n with
  | [_; _; a; b; c; d] => match hex4 a b c d with Some m => m =? n | None => false end
  | _ => false
  end.

Fixpoint range_check (start : N) (count : nat) : bool :=
  match count with
  | O => true
  | S k => hex_roundtrip start && range_check (N.succ start) k
  end.

(** A member [key:value] of the text [stringify_record] writes, and the
    members [parse] reads back for a string record. *)
Definition member (kv : jsstr * jsstr) : jsstr := quote kv.1 ++ 58 :: quote kv.2.

Definition json_members (e : env) : list (jsstr * json) := map (fun kv => (kv.1, JStr kv.2)) e.

End Json.

(* ================================================================== *)
(** * Records of [packages/db] and [lib/run/types.ts] *)

(** [RunStatus["status"]], the enum of [runStatusSchema]. *)
Inductive RunLifecycleStatus := Idle | Starting | Running | Succeeded | Failed | Stopped.

Definition status_text (s : RunLifecycleStatus) : jsstr :=
  match s with
  | Idle => s2u "idle" | Starting => s2u "starting" | Running => s2u "running"
  | Succeeded => s2u "succeeded" | Failed => s2u "failed" | Stopped => s2u "stopped"
  end.

(** [z.enum([...]).parse] on the stored text. *)
Definition status_of_text (t : jsstr) : option RunLifecycleStatus :=
  find (fun s => bool_decide (status_text s = t)) [Idle; Starting; Running; Succeeded; Failed; Stopped].

Definition is_active (s : RunLifecycleStatus) : bool :=
  match s with Starting | Running => true | _ => false end.

(** [Project] (the fields the run service reads). *)
Record Project := mkProject { project_id : jsstr; project_name : jsstr; project_path : jsstr }.

(** [RunConfig] = [z.infer<typeof runSchema>]. *)
Record RunConfig := mkRunConfig {
  rc_id : jsstr; rc_projectId : jsstr; rc_command : jsstr; rc_args : list jsstr;
  rc_env : env; rc_cwd : option jsstr; rc_lastExitCode : option Z; rc_updatedAt : Z }.

(** [RunRow]: a row of the [runs] table; [args] and [env] are JSON text. *)
Record RunRow := mkRunRow {
  row_id : jsstr; row_project_id : jsstr; row_command : jsstr; row_args : option jsstr;
  row_env : option jsstr; row_cwd : option jsstr; row_last_exit_code : option Z;
  row_updated_at : Z }.

(** [RunStatus] = [z.infer<typeof runStatusSchema>]. *)
Record RunStatus := mkRunStatus {
  rs_projectId : jsstr; rs_status : RunLifecycleStatus; rs_lastRunId : option jsstr;
  rs_lastCommand : option jsstr; rs_lastArgs : list jsstr; rs_lastEnv : env;
  rs_lastCwd : option jsstr; rs_lastExitCode : option Z; rs_startedAt : option Z;
  rs_finishedAt : option Z; rs_updatedAt : Z }.

(** [RunStatusRow]: a row of the [run_status] table. *)
Record RunStatusRow := mkRunStatusRow {
  srow_project_id : jsstr; srow_status : jsstr; srow_last_run_id : option jsstr;
  srow_last_command : option jsstr; srow_last_args : option jsstr; srow_last_env : option jsstr;
  srow_last_cwd : option jsstr; srow_last_exit_code : option Z; srow_started_at : option Z;
  srow_finished_at : option Z; srow_updated_at : Z }.

(** [RunState extends RunStatus { tabId: string | null }]. *)
Record RunState := mkRunState {
  st_projectId : jsstr; st_status : RunLifecycleStatus; st_lastRunId : option jsstr;
  st_lastCommand : option jsstr; st_lastArgs : list jsstr; st_lastEnv : env;
  st_lastCwd : option jsstr; st_lastExitCode : option Z; st_startedAt : option Z;
  st_finishedAt : option Z; st_updatedAt : Z; st_tabId : option jsstr }.

Record RunCommand := mkRunCommand {
  cmd_command : jsstr; cmd_args : list jsstr; cmd_env : env; cmd_cwd : jsstr;
  cmd_runId : option jsstr }.

(** [RunOverrides]: every field optional; [None] is [undefined] (and [null]
    for [runId], which every use sends through [??]). *)
Record RunOverrides := mkRunOverrides {
  ov_command : option jsstr; ov_args : option (list jsstr); ov_env : option env;
  ov_cwd : option jsstr; ov_remember : option bool; ov_runId : option jsstr }.

Definition no_overrides : RunOverrides := mkRunOverrides None None None None None None.

Inductive ProcessType := PtyType | ShellType.

(** [RunProcess]; its [kill] closure captured the tab's [pty] and [fallback]
    (= [rp_type = ShellType]). *)
Record RunProcess := mkRunProcess {
  rp_tabId : jsstr; rp_stopRequested : bool; rp_type : ProcessType; rp_pty : nat }.

(** [RunToastMessage]; the message text is kept as the parts it is built of. *)
Record Toast := mkToast {
  toast_projectId : jsstr; toast_name : jsstr; toast_code : option Z; toast_tabId : option jsstr }.

(** ** Terminal registry objects ([lib/terminal] of the desktop app) *)

Inductive Backend := NativePty | ShellAdapterBackend.

(** Exit listeners, as data: the epilogue that [createTabWithProcess] wires,
    and the [onExit] handler that [RunService.start] registers. *)
Inductive Listener :=
| LEpilogue (term : nat)
| LRunExit (project : Project) (command : RunCommand) (tabId : jsstr).

Record Pty := mkPty {
  pty_backend : Backend;
  pty_exit_listeners : list (nat * Listener);
  pty_data_listeners : list nat;
  pty_close_wired : bool;   (* ShellAdapter: [closeHandler] subscribed to [close] *)
  pty_write_throws : bool;
  pty_kill_throws : bool }.

Record Term := mkTerm { term_input_wired : bool; term_output : list (option Z); term_disposed : bool }.

Inductive Disposable :=
| DPtyData (pty : nat) (lid : nat)
| DTermData (term : nat)
| DPtyExit (pty : nat) (lid : nat)
| DShellAdapter (pty : nat).

Inductive TerminalTabKind := ShellTab | RunTab.

Record TerminalTab := mkTab {
  tab_id : jsstr; tab_projectId : jsstr; tab_title : jsstr; tab_cwd : jsstr;
  tab_program : jsstr; tab_args : list jsstr; tab_pty : nat; tab_terminal : nat;
  tab_disposables : list Disposable; tab_kind : TerminalTabKind }.

(** Observable effects, in the order they happen. *)
Inductive Event :=
| EvPersist (projectId : jsstr) (status : RunLifecycleStatus)   (* saveRunStatus wrote the row *)
| EvStateSet (projectId : jsstr) (status : RunLifecycleStatus)  (* updateState published *)
| EvSpawn (b : Backend) (command : jsstr) (ok : bool)
| EvSessionCreated (tabId : jsstr)
| EvSessionDisposed (tabId : jsstr)
| EvWrite (pty : nat) (data : jsstr)
| EvKill (pty : nat) (signal : option jsstr)
| EvConsoleWarn
| EvConsoleError.

Record World := mkWorld {
  w_states : gmap jsstr RunState; (* RunService.states *)
  w_toast : option Toast; (* RunService.toastStore *)
  w_processes : gmap jsstr RunProcess; (* RunService.processes *)
  w_db_projects : list jsstr; (* ids of the [projects] table (target of the [runs] foreign key) *)
  w_db_runs : list RunRow; (* the [runs] table, in row order *)
  w_db_status : list RunStatusRow; (* the [run_status] table, in row order *)
  w_tabs : gmap jsstr TerminalTab; (* TerminalService.tabMap *)
  w_ptys : gmap nat Pty; (* backing processes (PTY handles and ShellAdapters) *)
  w_terms : gmap nat Term; (* virtual terminal buffers *)
  w_next : nat; (* source of fresh identifiers ([crypto.randomUUID], handles, listener ids) *)
  w_clock : Z; (* [Date.now()] *)
  w_is_windows : bool; (* what [isWindows()] answers *)
  w_pty_spawn_ok : bool; (* whether the PTY backend can spawn *)
  w_shell_spawn_ok : bool; (* whether [Command.spawn] succeeds *)
  w_write_throws : bool; (* whether a newly spawned PTY throws on [write] *)
  w_kill_throws : bool; (* whether a newly spawned PTY throws on [kill] *)
  w_log : list Event (* observable effects, oldest first *)
}.

Definition upd_states (f : gmap jsstr RunState -> gmap jsstr RunState) (w : World) : World :=
  mkWorld (f (w_states w)) (w_toast w) (w_processes w) (w_db_projects w) (w_db_runs w) (w_db_status w) (w_tabs w) (w_ptys w) (w_terms w) (w_next w) (w_clock w) (w_is_windows w) (w_pty_spawn_ok w) (w_shell_spawn_ok w) (w_write_throws w) (w_kill_throws w) (w_log w).

Definition upd_toast (f : option Toast -> option Toast) (w : World) : World :=
  mkWorld (w_states w) (f (w_toast w)) (w_processes w) (w_db_projects w) (w_db_runs w) (w_db_status w) (w_tabs w) (w_ptys w) (w_terms w) (w_next w) (w_clock w) (w_is_windows w) (w_pty_spawn_ok w) (w_shell_spawn_ok w) (w_write_throws w) (w_kill_throws w) (w_log w).

Definition upd_processes (f : gmap jsstr RunProcess -> gmap jsstr RunProcess) (w : World) : World :=
  mkWorld (w_states w) (w_toast w) (f (w_processes w)) (w_db_projects w) (w_db_runs w) (w_db_status w) (w_tabs w) (w_ptys w) (w_terms w) (w_next w) (w_clock w) (w_is_windows w) (w_pty_spawn_ok w) (w_shell_spawn_ok w) (w_write_throws w) (w_kill_throws w) (w_log w).

Definition upd_db_runs (f : list RunRow -> list RunRow) (w : World) : World :=
  mkWorld (w_states w) (w_toast w) (w_processes w) (w_db_projects w) (f (w_db_runs w)) (w_db_status w) (w_tabs w) (w_ptys w) (w_terms w) (w_next w) (w_clock w) (w_is_windows w) (w_pty_spawn_ok w) (w_shell_spawn_ok w) (w_write_throws w) (w_kill_throws w) (w_log w).

Definition upd_db_status (f : list RunStatusRow -> list RunStatusRow) (w : World) : World :=
  mkWorld (w_states w) (w_toast w) (w_processes w) (w_db_projects w) (w_db_runs w) (f (w_db_status w)) (w_tabs w) (w_ptys w) (w_terms w) (w_next w) (w_clock w) (w_is_windows w) (w_pty_spawn_ok w) (w_shell_spawn_ok w) (w_write_throws w) (w_kill_throws w) (w_log w).

Definition upd_tabs (f : gmap jsstr TerminalTab -> gmap jsstr TerminalTab) (w : World) : World :=
  mkWorld (w_states w) (w_toast w) (w_processes w) (w_db_projects w) (w_db_runs w) (w_db_status w) (f (w_tabs w)) (w_ptys w) (w_terms w) (w_next w) (w_clock w) (w_is_windows w) (w_pty_spawn_ok w) (w_shell_spawn_ok w) (w_write_throws w) (w_kill_throws w) (w_log w).

Definition upd_ptys (f : gmap nat Pty -> gmap nat Pty) (w : World) : World :=
  mkWorld (w_states w) (w_toast w) (w_processes w) (w_db_projects w) (w_db_runs w) (w_db_status w) (w_tabs w) (f (w_ptys w)) (w_terms w) (w_next w) (w_clock w) (w_is_windows w) (w_pty_spawn_ok w) (w_shell_spawn_ok w) (w_write_throws w) (w_kill_throws w) (w_log w).

Definition upd_terms (f : gmap nat Term -> gmap nat Term) (w : World) : World :=
  mkWorld (w_states w) (w_toast w) (w_processes w) (w_db_projects w) (w_db_runs w) (w_db_status w) (w_tabs w) (w_ptys w) (f (w_terms w)) (w_next w) (w_clock w) (w_is_windows w) (w_pty_spawn_ok w) (w_shell_spawn_ok w) (w_write_throws w) (w_kill_throws w) (w_log w).

Definition upd_next (f : nat -> nat) (w : World) : World :=
  mkWorld (w_states w) (w_toast w) (w_processes w) (w_db_projects w) (w_db_runs w) (w_db_status w) (w_tabs w) (w_ptys w) (w_terms w) (f (w_next w)) (w_clock w) (w_is_windows w) (w_pty_spawn_ok w) (w_shell_spawn_ok w) (w_write_throws w) (w_kill_throws w) (w_log w).

Definition upd_clock (f : Z -> Z) (w : World) : World :=
  mkWorld (w_states w) (w_toast w) (w_processes w) (w_db_projects w) (w_db_runs w) (w_db_status w) (w_tabs w) (w_ptys w) (w_terms w) (w_next w) (f (w_clock w)) (w_is_windows w) (w_pty_spawn_ok w) (w_shell_spawn_ok w) (w_write_throws w) (w_kill_throws w) (w_log w).

Definition upd_log (f : list Event -> list Event) (w : World) : World :=
  mkWorld (w_states w) (w_toast w) (w_processes w) (w_db_projects w) (w_db_runs w) (w_db_status w) (w_tabs w) (w_ptys w) (w_terms w) (w_next w) (w_clock w) (w_is_windows w) (w_pty_spawn_ok w) (w_shell_spawn_ok w) (w_write_throws w) (w_kill_throws w) (f (w_log w)).

(* ================================================================== *)
(** * Asynchronous programs

    [Yield] is an [await]: the rest of the function runs in a later job, and
    other jobs may run in between. [Throw] is a thrown exception or a
    rejected promise. *)

Inductive Exn :=
| ERunAlreadyInProgress (projectId : jsstr)
| EMissingRunConfiguration (projectId : jsstr)
| ESpawn (b : Backend)
| EForeignKey
| ESchema
| EWrite
| EKill.

Inductive Prog (A : Type) : Type :=
| Ret (a : A)
| Throw (e : Exn)
| Get (k : World -> Prog A)
| Put (w : World) (k : Prog A)
| Yield (k : Prog A).
Arguments Ret {A} a.
Arguments Throw {A} e.
Arguments Get {A} k.
Arguments Put {A} w k.
Arguments Yield {A} k.

Fixpoint bind {A B} (p : Prog A) (f : A -> Prog B) : Prog B :=
  match p with
  | Ret a => f a
  | Throw e => Throw e
  | Get k => Get (fun w => bind (k w) f)
  | Put w k => Put w (bind k f)
  | Yield k => Yield (bind k f)
  end.

(** [try { p } catch (err) { h(err) }] *)
Fixpoint catch {A} (p : Prog A) (h : Exn -> Prog A) : Prog A :=
  match p with
  | Ret a => Ret a
  | Throw e => h e
  | Get k => Get (fun w => catch (k w) h)
  | Put w k => Put w (catch k h)
  | Yield k => Yield (catch k h)
  end.

Notation "'let*' x ':=' p 'in' q" := (bind p (fun x => q))
  (at level 200, x name, p at level 100, q at level 200).
Notation "p ;;; q" := (bind p (fun _ => q)) (at level 100, right associativity).

Definition gets {A} (f : World -> A) : Prog A := Get (fun w => Ret (f w)).
Definition modify (f : World -> World) : Prog unit := Get (fun w => Put (f w) (Ret tt)).
Definition yield : Prog unit := Yield (Ret tt).
(** [await p] *)
Definition await {A} (p : Prog A) : Prog A := let* x := p in Yield (Ret x).

Definition log (e : Event) : Prog unit := modify (upd_log (fun l => l ++ [e])).

(** A fresh identifier (also [crypto.randomUUID()]). *)
Definition fresh : Prog nat := Get (fun w => Put (upd_next S w) (Ret (w_next w))).
Definition uuid_of (n : nat) : jsstr := s2u "uuid-" ++ [N.of_nat n].

Inductive Outcome (A : Type) := Ok (a : A) | Err (e : Exn).
Arguments Ok {A} a.
Arguments Err {A} e.

(** Running a program to its end, every awaited job resuming at once. *)
Fixpoint run {A} (w : World) (p : Prog A) : World * Outcome A :=
  match p with
  | Ret a => (w, Ok a)
  | Throw e => (w, Err e)
  | Get k => run w (k w)
  | Put w' k => run w' k
  | Yield k => run w k
  end.

(** One job: a program runs up to its next [await]. *)
Fixpoint run_job {A} (w : World) (p : Prog A) : World * Prog A :=
  match p with
  | Get k => run_job w (k w)
  | Put w' k => run_job w' k
  | Yield k => (w, k)
  | Ret _ | Throw _ => (w, p)
  end.

(** Several pending calls of one async function, and a schedule picking
    whose job runs next. *)
Definition Config (A : Type) := (World * list (Prog A))%type.

Definition step_thread {A} (i : nat) (c : Config A) : Config A :=
  match c.2 !! i with
  | Some p => let r := run_job c.1 p in (r.1, <[i := r.2]> c.2)
  | None => c
  end.

Definition schedule {A} (is : list nat) (c : Config A) : Config A :=
  fold_left (fun c i => step_thread i c) is c.

(* ================================================================== *)
(** * [packages/db]: the run tables *)

Definition args_text (l : list jsstr) : jsstr := Json.stringify_array l.
Definition env_text (e : env) : jsstr := Json.stringify_record e.

(** [parsed.args ? stringArraySchema.parse(JSON.parse(parsed.args)) : []] *)
Definition parse_args (t : option jsstr) : option (list jsstr) :=
  if truthy_str t then
    match t with
    | Some s => match Json.parse s with Some v => Json.string_array_schema v | None => None end
    | None => Some []
    end
  else Some [].

Definition parse_env (t : option jsstr) : option env :=
  if truthy_str t then
    match t with
    | Some s => match Json.parse s with Some v => Json.string_record_schema v | None => None end
    | None => Some []
    end
  else Some [].

Definition fromRunRow (row : RunRow) : option RunConfig :=
  match parse_args (row_args row), parse_env (row_env row) with
  | Some args, Some e =>
      Some (mkRunConfig (row_id row) (row_project_id row) (row_command row) args e
              (row_cwd row) (row_last_exit_code row) (row_updated_at row))
  | _, _ => None
  end.

Definition toRunRow (run : RunConfig) : RunRow :=
  mkRunRow (rc_id run) (rc_projectId run) (rc_command run) (Some (args_text (rc_args run)))
    (Some (env_text (rc_env run))) (rc_cwd run) (rc_lastExitCode run) (rc_updatedAt run).

(** [INSERT ... ON CONFLICT(id) DO UPDATE]: the row keeps its place. *)
Fixpoint upsert_run (r : RunRow) (rows : list RunRow) : list RunRow :=
  match rows with
  | [] => [r]
  | r' :: rest => if decide (row_id r' = row_id r) then r :: rest else r' :: upsert_run r rest
  end.

Definition saveRunConfig (run : RunConfig) : Prog unit :=
  yield;;;   (* await getDatabase() *)
  let* ok := gets (fun w => bool_decide (rc_projectId run ∈ w_db_projects w)) in
  if ok then await (modify (upd_db_runs (upsert_run (toRunRow run))))
  else Yield (Throw EForeignKey).

(** [ORDER BY updated_at DESC]; rows with equal [updated_at] keep their row
    order. *)
Fixpoint insert_desc (r : RunRow) (rows : list RunRow) : list RunRow :=
  match rows with
  | [] => [r]
  | r' :: rest => if Z.ltb (row_updated_at r') (row_updated_at r) then r :: rows else r' :: insert_desc r rest
  end.

Definition sort_desc (rows : list RunRow) : list RunRow := fold_right insert_desc [] (rev rows).

Fixpoint map_opt {A B} (f : A -> option B) (l : list A) : option (list B) :=
  match l with
  | [] => Some []
  | x :: r => match f x, map_opt f r with Some y, Some ys => Some (y :: ys) | _, _ => None end
  end.

Definition select_runs (projectId : jsstr) (rows : list RunRow) : list RunRow :=
  sort_desc (filter (fun r => bool_decide (row_project_id r = projectId)) rows).

Definition listRuns (projectId : jsstr) : Prog (list RunConfig) :=
  yield;;;
  let* rows := gets (fun w => select_runs projectId (w_db_runs w)) in
  Yield (match map_opt fromRunRow rows with Some l => Ret l | None => Throw ESchema end).

Definition set_outcome (id : jsstr) (code : option Z) (at_ : Z) (r : RunRow) : RunRow :=
  if decide (row_id r = id) then
    mkRunRow (row_id r) (row_project_id r) (row_command r) (row_args r) (row_env r) (row_cwd r) code at_
  else r.

Definition updateRunOutcome (id : jsstr) (code : option Z) (at_ : Z) : Prog unit :=
  yield;;; await (modify (upd_db_runs (map (set_outcome id code at_)))).

Definition toStatusRow (s : RunStatus) : RunStatusRow :=
  mkRunStatusRow (rs_projectId s) (status_text (rs_status s)) (rs_lastRunId s) (rs_lastCommand s)
    (Some (args_text (rs_lastArgs s))) (Some (env_text (rs_lastEnv s))) (rs_lastCwd s)
    (rs_lastExitCode s) (rs_startedAt s) (rs_finishedAt s) (rs_updatedAt s).

Fixpoint upsert_status (r : RunStatusRow) (rows : list RunStatusRow) : list RunStatusRow :=
  match rows with
  | [] => [r]
  | r' :: rest =>
      if decide (srow_project_id r' = srow_project_id r) then r :: rest else r' :: upsert_status r rest
  end.

Definition saveRunStatus (s : RunStatus) : Prog unit :=
  yield;;;
  modify (upd_db_status (upsert_status (toStatusRow s)));;;
  log (EvPersist (rs_projectId s) (rs_status s));;;
  yield.

Definition fromRunStatusRow (r : RunStatusRow) : option RunStatus :=
  match status_of_text (srow_status r), parse_args (srow_last_args r), parse_env (srow_last_env r) with
  | Some st, Some args, Some e =>
      Some (mkRunStatus (srow_project_id r) st (srow_last_run_id r) (srow_last_command r) args e
              (srow_last_cwd r) (srow_last_exit_code r) (srow_started_at r) (srow_finished_at r)
              (srow_updated_at r))
  | _, _, _ => None
  end.

Definition listRunStatuses : Prog (list RunStatus) :=
  yield;;;
  let* rows := gets w_db_status in
  Yield (match map_opt fromRunStatusRow rows with Some l => Ret l | None => Throw ESchema end).


(* ================================================================== *)
(** * The terminal registry: [TerminalService] *)

Definition upd_pty (p : nat) (f : Pty -> Pty) : Prog unit :=
  modify (upd_ptys (fun m => match m !! p with Some x => <[p := f x]> m | None => m end)).

Definition upd_term (t : nat) (f : Term -> Term) : Prog unit :=
  modify (upd_terms (fun m => match m !! t with Some x => <[t := f x]> m | None => m end)).

Definition add_exit_listener (l : nat * Listener) (x : Pty) : Pty :=
  mkPty (pty_backend x) (pty_exit_listeners x ++ [l]) (pty_data_listeners x) (pty_close_wired x)
    (pty_write_throws x) (pty_kill_throws x).

Definition remove_exit_listener (lid : nat) (x : Pty) : Pty :=
  mkPty (pty_backend x) (filter (fun l => negb (Nat.eqb l.1 lid)) (pty_exit_listeners x))
    (pty_data_listeners x) (pty_close_wired x) (pty_write_throws x) (pty_kill_throws x).

Definition add_data_listener (lid : nat) (x : Pty) : Pty :=
  mkPty (pty_backend x) (pty_exit_listeners x) (pty_data_listeners x ++ [lid]) (pty_close_wired x)
    (pty_write_throws x) (pty_kill_throws x).

Definition remove_data_listener (lid : nat) (x : Pty) : Pty :=
  mkPty (pty_backend x) (pty_exit_listeners x) (filter (fun l => negb (Nat.eqb l lid)) (pty_data_listeners x))
    (pty_close_wired x) (pty_write_throws x) (pty_kill_throws x).

(** [ShellAdapter.dispose()]: [close] unsubscribed, both listener sets cleared. *)
Definition shell_adapter_dispose (x : Pty) : Pty :=
  mkPty (pty_backend x) [] [] false (pty_write_throws x) (pty_kill_throws x).

(** [pty.onExit(listener)] *)
Definition pty_onExit (p : nat) (l : Listener) : Prog nat :=
  let* lid := fresh in upd_pty p (add_exit_listener (lid, l));;; Ret lid.

(** [createTerminal()] *)
Definition createTerminal : Prog nat :=
  let* t := fresh in modify (upd_terms (<[t := mkTerm false [] false]>));;; Ret t.

(** tauri-pty [spawn(command, args, {cols, rows, cwd, env})]. *)
Definition spawn_pty (command : jsstr) : Prog nat :=
  let* ok := gets w_pty_spawn_ok in
  log (EvSpawn NativePty command ok);;;
  if ok then
    let* p := fresh in
    let* wt := gets w_write_throws in
    let* kt := gets w_kill_throws in
    modify (upd_ptys (<[p := mkPty NativePty [] [] false wt kt]>));;; Ret p
  else Throw (ESpawn NativePty).

(** The [spawnOverride] of [RunService.start]: [Command.create], [await
    cmd.spawn()], then [new ShellAdapter(...)], which subscribes its
    [closeHandler]; returns [shellAdapter.adapter]. *)
Definition spawn_shell_adapter (command : jsstr) : Prog nat :=
  let* ok := gets w_shell_spawn_ok in
  log (EvSpawn ShellAdapterBackend command ok);;;
  yield;;;
  if ok then
    let* p := fresh in
    modify (upd_ptys (<[p := mkPty ShellAdapterBackend [] [] true false false]>));;; Ret p
  else Throw (ESpawn ShellAdapterBackend).

(** [createTabWithProcess]; [override] selects the factory [createRunTab]
    passes: the [spawnOverride] when given, else the PTY [spawn]. *)
Definition createTabWithProcess (projectId title cwd program : jsstr) (args : list jsstr)
    (kind : TerminalTabKind) (override : bool) : Prog TerminalTab :=
  let* terminal := createTerminal in
  let* n := fresh in
  let tabId := uuid_of n in
  let* pty := await (if override then spawn_shell_adapter program else spawn_pty program) in
  let* d1 := fresh in
  upd_pty pty (add_data_listener d1);;;
  upd_term terminal (fun t => mkTerm true (term_output t) (term_disposed t));;;
  let* d3 := pty_onExit pty (LEpilogue terminal) in
  let tab := mkTab tabId projectId title cwd program args pty terminal
               [DPtyData pty d1; DTermData terminal; DPtyExit pty d3] kind in
  modify (upd_tabs (<[tabId := tab]>));;;
  log (EvSessionCreated tabId);;;
  Ret tab.

(** [createRunTab(options)] *)
Definition createRunTab (projectId title command : jsstr) (args : list jsstr) (cwd : jsstr)
    (override : bool) : Prog TerminalTab :=
  createTabWithProcess projectId title cwd command args RunTab override.

(** [pty.write(data)]: tauri-pty may throw; the ShellAdapter's [write] is
    [void self.child.write(data)] and never throws. *)
Definition pty_write (p : nat) (data : jsstr) : Prog unit :=
  let* x := gets (fun w => w_ptys w !! p) in
  match x with
  | Some x =>
      match pty_backend x with
      | NativePty => if pty_write_throws x then Throw EWrite else log (EvWrite p data)
      | ShellAdapterBackend => log (EvWrite p data)
      end
  | None => Throw EWrite
  end.

(** [pty.kill(signal?)]: tauri-pty may throw; the ShellAdapter's [kill] is
    [void self.child.kill()]. *)
Definition pty_kill (p : nat) (signal : option jsstr) : Prog unit :=
  let* x := gets (fun w => w_ptys w !! p) in
  match x with
  | Some x =>
      match pty_backend x with
      | NativePty => if pty_kill_throws x then Throw EKill else log (EvKill p signal)
      | ShellAdapterBackend => log (EvKill p None)
      end
  | None => Throw EKill
  end.

(** [TerminalService.write(id, data)] *)
Definition terminal_write (id : jsstr) (data : jsstr) : Prog unit :=
  let* t := gets (fun w => w_tabs w !! id) in
  match t with
  | None => Ret tt
  | Some tab => pty_write (tab_pty tab) data
  end.

Definition dispose_one (d : Disposable) : Prog unit :=
  match d with
  | DPtyData p lid => upd_pty p (remove_data_listener lid)
  | DTermData t => upd_term t (fun x => mkTerm false (term_output x) (term_disposed x))
  | DPtyExit p lid => upd_pty p (remove_exit_listener lid)
  | DShellAdapter p => upd_pty p shell_adapter_dispose
  end.

Fixpoint dispose_all (ds : list Disposable) : Prog unit :=
  match ds with
  | [] => Ret tt
  | d :: r => dispose_one d;;; dispose_all r
  end.

(** [TerminalService.dispose(id)] *)
Definition terminal_dispose (id : jsstr) : Prog unit :=
  let* t := gets (fun w => w_tabs w !! id) in
  match t with
  | None => Ret tt
  | Some tab =>
      dispose_all (tab_disposables tab);;;
      catch (pty_kill (tab_pty tab) None) (fun _ => log EvConsoleError);;;
      upd_term (tab_terminal tab) (fun x => mkTerm (term_input_wired x) (term_output x) true);;;
      modify (upd_tabs (delete id));;;
      log (EvSessionDisposed id)
  end.

(** [ShellAdapter.closeHandler]: the exit code each exit listener receives. *)
Definition closeHandler_code (code : option Z) : Z :=
  match code with Some c => c | None => 0%Z end.


(* ================================================================== *)
(** * [RunService] *)

Definition createIdleState (projectId : jsstr) (now : Z) : RunState :=
  mkRunState projectId Idle None None [] [] None None None None now None.

Definition toPersist (s : RunState) : RunStatus :=
  mkRunStatus (st_projectId s) (st_status s) (st_lastRunId s) (st_lastCommand s) (st_lastArgs s)
    (st_lastEnv s) (st_lastCwd s) (st_lastExitCode s) (st_startedAt s) (st_finishedAt s)
    (st_updatedAt s).

Definition getState (projectId : jsstr) : Prog RunState :=
  Get (fun w =>
    match w_states w !! projectId with
    | Some current => Ret current
    | None =>
        let next := createIdleState projectId (w_clock w) in
        Put (upd_states (<[projectId := next]>) w) (Ret next)
    end).

Definition updateState (s : RunState) : Prog unit :=
  modify (upd_states (<[st_projectId s := s]>));;;
  log (EvStateSet (st_projectId s) (st_status s)).

(** The second and third steps of [resolveCommand]. *)
Definition resolve_saved (project : Project) (o : RunOverrides) : Prog (option RunCommand) :=
  let* current := getState (project_id project) in
  match st_lastCommand current with
  | Some ((_ :: _) as c) =>
      Ret (Some (mkRunCommand c (nullish (ov_args o) (st_lastArgs current))
                  (nullish (ov_env o) (st_lastEnv current))
                  (nullish (ov_cwd o) (nullish (st_lastCwd current) (project_path project)))
                  (match ov_runId o with Some r => Some r | None => st_lastRunId current end)))
  | _ =>
      let* runs := await (listRuns (project_id project)) in
      match runs with
      | [] => Ret None
      | selected :: _ =>
          Ret (Some (mkRunCommand (rc_command selected) (nullish (ov_args o) (rc_args selected))
                      (nullish (ov_env o) (rc_env selected))
                      (nullish (ov_cwd o) (nullish (rc_cwd selected) (project_path project)))
                      (match ov_runId o with Some r => Some r | None => Some (rc_id selected) end)))
      end
  end.

(** [RunService.resolveCommand] *)
Definition resolveCommand (project : Project) (o : RunOverrides) : Prog (option RunCommand) :=
  match ov_command o with
  | Some ((_ :: _) as c) =>
      Ret (Some (mkRunCommand c (nullish (ov_args o) []) (nullish (ov_env o) [])
                  (nullish (ov_cwd o) (project_path project)) (ov_runId o)))
  | _ => resolve_saved project o
  end.

(** The state [start] enters before it spawns anything. *)
Definition starting_state (state : RunState) (command : RunCommand) (now : Z) : RunState :=
  mkRunState (st_projectId state) Starting
    (match cmd_runId command with Some r => Some r | None => st_lastRunId state end)
    (Some (cmd_command command)) (cmd_args command) (cmd_env command) (Some (cmd_cwd command))
    None (Some now) None now None.

Definition running_state (next : RunState) (tabId : jsstr) (now : Z) : RunState :=
  mkRunState (st_projectId next) Running (st_lastRunId next) (st_lastCommand next)
    (st_lastArgs next) (st_lastEnv next) (st_lastCwd next) (st_lastExitCode next)
    (st_startedAt next) (st_finishedAt next) now (Some tabId).

(** The outcome the exit handler derives. *)
Definition classify (stopRequested : bool) (code : option Z) : RunLifecycleStatus :=
  if stopRequested then Stopped
  else match code with
       | None => Failed
       | Some c => if Z.eqb c 0 then Succeeded else Failed
       end.

Definition final_state (cur : RunState) (status : RunLifecycleStatus) (code : option Z)
    (finished : Z) (tabId : jsstr) : RunState :=
  mkRunState (st_projectId cur) status (st_lastRunId cur) (st_lastCommand cur) (st_lastArgs cur)
    (st_lastEnv cur) (st_lastCwd cur) code (st_startedAt cur) (Some finished) finished (Some tabId).

(** The [onExit] handler [start] registers on the run's [pty]. *)
Definition onExit_handler (project : Project) (command : RunCommand) (tabId : jsstr)
    (exitCode : option Z) : Prog unit :=
  let pid := project_id project in
  let* processInfo := gets (fun w => w_processes w !! pid) in
  let stopRequested := match processInfo with Some p => rp_stopRequested p | None => false end in
  let* finished := gets w_clock in
  let code := exitCode in
  let status := classify stopRequested code in
  let* cur := getState pid in
  let fin := final_state cur status code finished tabId in
  await (saveRunStatus (toPersist fin));;;
  updateState fin;;;
  modify (upd_processes (delete pid));;;
  (match cmd_runId command with
   | Some ((_ :: _) as r) => await (updateRunOutcome r code finished)
   | _ => Ret tt
   end);;;
  match status with
  | Failed => modify (upd_toast (fun _ => Some (mkToast pid (project_name project) code (Some tabId))))
  | _ => Ret tt
  end.

Definition push_disposable (tabId : jsstr) (d : Disposable) (t : TerminalTab) : TerminalTab :=
  mkTab (tab_id t) (tab_projectId t) (tab_title t) (tab_cwd t) (tab_program t) (tab_args t)
    (tab_pty t) (tab_terminal t) (tab_disposables t ++ [d]) (tab_kind t).

Definition run_title (project : Project) : jsstr := s2u "Run: " ++ project_name project.

(** [RunService.start(project, overrides)] *)
Definition start (project : Project) (o : RunOverrides) : Prog jsstr :=
  let pid := project_id project in
  let* state := getState pid in
  if is_active (st_status state) then Throw (ERunAlreadyInProgress pid) else
  let* command := await (resolveCommand project o) in
  match command with
  | None => Throw (EMissingRunConfiguration pid)
  | Some command =>
  let* now := gets w_clock in
  let next := starting_state state command now in
  await (saveRunStatus (toPersist next));;;
  updateState next;;;
  let* r := catch
    (let* tab := await (createRunTab pid (run_title project) (cmd_command command)
                          (cmd_args command) (cmd_cwd command) false) in
     Ret (tab, false))
    (fun _ =>
       log EvConsoleWarn;;;
       let* tab := await (createRunTab pid (run_title project) (cmd_command command)
                            (cmd_args command) (cmd_cwd command) true) in
       Ret (tab, true)) in
  let '(tab, fallback) := r in
  (if fallback
   then modify (upd_tabs (fun m => match m !! tab_id tab with
                                   | Some t => <[tab_id tab := push_disposable (tab_id tab) (DShellAdapter (tab_pty tab)) t]> m
                                   | None => m
                                   end))
   else Ret tt);;;
  let* now2 := gets w_clock in
  let runningState := running_state next (tab_id tab) now2 in
  await (saveRunStatus (toPersist runningState));;;
  updateState runningState;;;
  modify (upd_processes (<[pid := mkRunProcess (tab_id tab) false
                                   (if fallback then ShellType else PtyType) (tab_pty tab)]>));;;
  pty_onExit (tab_pty tab) (LRunExit project command (tab_id tab));;;
  Ret (tab_id tab)
  end.

(** The [kill] capability of a [RunProcess]. *)
Definition run_kill (rp : RunProcess) : Prog unit :=
  let* isWindows := await (gets w_is_windows) in
  catch
    (if (match rp_type rp with PtyType => true | ShellType => false end) && negb isWindows
     then pty_kill (rp_pty rp) (Some (s2u "SIGINT"))
     else pty_kill (rp_pty rp) None)
    (fun _ => log EvConsoleError;;; catch (pty_kill (rp_pty rp) None) (fun _ => log EvConsoleError)).

(** [RunService.stop(projectId)] *)
Definition stop (projectId : jsstr) : Prog unit :=
  let* process := gets (fun w => w_processes w !! projectId) in
  match process with
  | None => Ret tt
  | Some p =>
      let p' := mkRunProcess (rp_tabId p) true (rp_type p) (rp_pty p) in
      modify (upd_processes (<[projectId := p']>));;;
      await (run_kill p')
  end.

(** [RunService.rememberConfiguration(project, config)] *)
Definition rememberConfiguration (project : Project) (config : RunConfig) : Prog unit :=
  await (saveRunConfig config);;;
  let* state := getState (project_id project) in
  let* now := gets w_clock in
  let next := mkRunState (st_projectId state) (st_status state) (Some (rc_id config))
                (Some (rc_command config)) (rc_args config) (rc_env config)
                (Some (nullish (rc_cwd config) (project_path project))) (st_lastExitCode state)
                (st_startedAt state) (st_finishedAt state) now (st_tabId state) in
  await (saveRunStatus (toPersist next));;;
  updateState next.

Definition state_of_status (r : RunStatus) : RunState :=
  mkRunState (rs_projectId r) (rs_status r) (rs_lastRunId r) (rs_lastCommand r) (rs_lastArgs r)
    (rs_lastEnv r) (rs_lastCwd r) (rs_lastExitCode r) (rs_startedAt r) (rs_finishedAt r)
    (rs_updatedAt r) None.

Definition load_map (projects : list Project) (rows : list RunStatus) (now : Z) : gmap jsstr RunState :=
  let ids := map project_id projects in
  let m := fold_left (fun m row =>
             if bool_decide (rs_projectId row ∈ ids) then <[rs_projectId row := state_of_status row]> m
             else m) rows ∅ in
  fold_left (fun m p =>
    match m !! project_id p with
    | Some _ => m
    | None => <[project_id p := createIdleState (project_id p) now]> m
    end) projects m.

(** [RunService.loadPersistedStates(projects)] *)
Definition loadPersistedStates (projects : list Project) : Prog unit :=
  let* rows := await listRunStatuses in
  let* now := gets w_clock in
  modify (upd_states (fun _ => load_map projects rows now)).

(** Delivery of a process exit to the listeners of a backing process: a
    PTY passes its [exitCode] on; a ShellAdapter passes what its
    [closeHandler] makes of the [close] payload, while still subscribed. *)
Definition deliver (l : Listener) (exitCode : option Z) : Prog unit :=
  match l with
  | LEpilogue t =>
      upd_term t (fun x => mkTerm (term_input_wired x)
                              (term_output x ++ [Some (closeHandler_code exitCode)]) (term_disposed x))
  | LRunExit project command tabId => onExit_handler project command tabId exitCode
  end.

Fixpoint deliver_all (ls : list (nat * Listener)) (exitCode : option Z) : Prog unit :=
  match ls with
  | [] => Ret tt
  | l :: r => deliver l.2 exitCode;;; deliver_all r exitCode
  end.

Definition process_exit (p : nat) (code : option Z) : Prog unit :=
  let* x := gets (fun w => w_ptys w !! p) in
  match x with
  | None => Ret tt
  | Some x =>
      match pty_backend x with
      | NativePty => deliver_all (pty_exit_listeners x) code
      | ShellAdapterBackend =>
          if pty_close_wired x
          then deliver_all (pty_exit_listeners x) (Some (closeHandler_code code))
          else Ret tt
      end
  end.


(* ================================================================== *)
(** * Invariants and scenarios *)

(** Every entry of the state map is stored under its own project id, as
    [updateState], [getState] and [loadPersistedStates] keep it. *)
Definition states_keyed (m : gmap jsstr RunState) : Prop :=
  map_Forall (fun k st => st_projectId st = k) m.

Definition demo_project : Project := mkProject (s2u "p1") (s2u "Demo") (s2u "/w/demo").

(** [{ command: "npm" }] *)
Definition npm_overrides : RunOverrides := mkRunOverrides (Some (s2u "npm")) None None None None None.

(** A freshly started application that knows [demo_project]; the flags say
    whether the PTY spawn and the subprocess spawn succeed and whether the
    PTY throws on [write]. *)
Definition demo_world (pty_ok shell_ok write_throws : bool) : World :=
  mkWorld ∅ None ∅ [s2u "p1"] [] [] ∅ ∅ ∅ 0 1000%Z false pty_ok shell_ok write_throws false [].

(** The job schedule that alternates between two pending calls. *)
Fixpoint alternate (n : nat) : list nat :=
  match n with O => [] | S k => 0 :: 1 :: alternate k end.

(** [listRuns] puts first a row with the greatest [updated_at]: the first
    row dominates the others. *)
Definition head_max (l : list RunRow) : Prop :=
  match l with
  | [] => True
  | h :: t => Forall (fun x => (row_updated_at x <= row_updated_at h)%Z) t
  end.

(** The two loops of [loadPersistedStates], one iteration each. *)
Definition load_step (ids : list jsstr) (m : gmap jsstr RunState) (row : RunStatus) : gmap jsstr RunState :=
  if bool_decide (rs_projectId row ∈ ids) then <[rs_projectId row := state_of_status row]> m else m.

Definition idle_step (now : Z) (m : gmap jsstr RunState) (p : Project) : gmap jsstr RunState :=
  match m !! project_id p with
  | Some _ => m
  | None => <[project_id p := createIdleState (project_id p) now]> m
  end.

(* ================================================================== *)
(** * The other operations of [RunService], of the run tables and of the
      terminal registry *)

(** [RunService.syncProjects(projects)]: an idle state for every listed
    project that has none, then the entries of projects no longer listed
    deleted from the copied map. *)
Definition sync_map (projects : list Project) (now : Z) (m : gmap jsstr RunState) : gmap jsstr RunState :=
  let ids := map project_id projects in
  filter (fun kv : jsstr * RunState => kv.1 ∈ ids) (fold_left (idle_step now) projects m).

Definition syncProjects (projects : list Project) : Prog unit :=
  let* now := gets w_clock in
  modify (upd_states (sync_map projects now)).

(** [getRunStatus(projectId)]: [WHERE project_id = ? LIMIT 1]. *)
Definition getRunStatus (projectId : jsstr) : Prog (option RunStatus) :=
  yield;;;
  let* rows := gets (fun w => List.filter (fun r => bool_decide (srow_project_id r = projectId)) (w_db_status w)) in
  Yield (match rows with
         | [] => Ret None
         | row :: _ => match fromRunStatusRow row with Some s => Ret (Some s) | None => Throw ESchema end
         end).

(** [deleteRunConfig(id)]: [DELETE FROM runs WHERE id = ?]. *)
Definition deleteRunConfig (id : jsstr) : Prog unit :=
  yield;;; await (modify (upd_db_runs (List.filter (fun r => negb (bool_decide (row_id r = id)))))).

(** The [terminal.onData] listener of [createTabWithProcess]: keyboard input
    of the tab's terminal goes to its process; a throwing write is caught
    and logged. The listener is a closure over the tab's [pty] and
    [terminal]; it is live until the [DTermData] disposable unwires it. *)
Definition terminal_input (tab : TerminalTab) (data : jsstr) : Prog unit :=
  let* t := gets (fun w => w_terms w !! tab_terminal tab) in
  match t with
  | Some t =>
      if term_input_wired t
      then catch (pty_write (tab_pty tab) data) (fun _ => log EvConsoleError)
      else Ret tt
  | None => Ret tt
  end.

(** ** The [projects] table ([id] primary key, [path] UNIQUE) *)

(** [Project] of [packages/db]. *)
Record ProjectRecord := mkProjectRecord {
  pr_id : jsstr; pr_name : jsstr; pr_path : jsstr; pr_detectedLang : option jsstr;
  pr_createdAt : Z; pr_updatedAt : Z }.

(** [ON CONFLICT(id) DO UPDATE SET name, path, detected_lang, updated_at]:
    [created_at] is not in the list, the row keeps its own. *)
Fixpoint upsert_project (p : ProjectRecord) (rows : list ProjectRecord) : list ProjectRecord :=
  match rows with
  | [] => [p]
  | r :: rest =>
      if decide (pr_id r = pr_id p)
      then mkProjectRecord (pr_id r) (pr_name p) (pr_path p) (pr_detectedLang p) (pr_createdAt r)
             (pr_updatedAt p) :: rest
      else r :: upsert_project p rest
  end.

(** [upsertProject(project)] on the table: [None] is the rejected statement
    (UNIQUE constraint on [path], held by a row with another id). *)
Definition upsertProject (p : ProjectRecord) (rows : list ProjectRecord) : option (list ProjectRecord) :=
  if existsb (fun r => negb (bool_decide (pr_id r = pr_id p)) && bool_decide (pr_path r = pr_path p)) rows
  then None
  else Some (upsert_project p rows).

(** [getProject(id)]: [WHERE id = ? LIMIT 1]. *)
Definition getProject (id : jsstr) (rows : list ProjectRecord) : option ProjectRecord :=
  head (List.filter (fun r => bool_decide (pr_id r = id)) rows).

(* ================================================================== *)
(** * The run dialog of [App.svelte]: [parseArgs], [parseEnv], [formatEnv] *)

Module Dialog.
Local Open Scope N_scope.

(** WhiteSpace and LineTerminator code points, which [String.prototype.trim]
    removes: TAB, LF, VT, FF, CR, SPACE, NBSP, ZWNBSP, LS, PS and the
    category Zs. *)
Definition is_js_space (c : N) : bool :=
  (c =? 9) || (c =? 10) || (c =? 11) || (c =? 12) || (c =? 13) || (c =? 32) || (c =? 160)
  || (c =? 5760) || ((8192 <=? c) && (c <=? 8202)) || (c =? 8232) || (c =? 8233) || (c =? 8239)
  || (c =? 8287) || (c =? 12288) || (c =? 65279).

Fixpoint drop_space (s : jsstr) : jsstr :=
  match s with
  | c :: r => if is_js_space c then drop_space r else s
  | [] => []
  end.

(** [s.trim()] *)
Definition trim (s : jsstr) : jsstr := rev (drop_space (rev (drop_space s))).

(** [s.split(/\r?\n/)]; [cur] holds the current piece, reversed. *)
Fixpoint split_lines_acc (cur : jsstr) (s : jsstr) : list jsstr :=
  match s with
  | [] => [rev cur]
  | c :: r =>
      if c =? 10 then rev cur :: split_lines_acc [] r
      else match r with
           | d :: r' =>
               if (c =? 13) && (d =? 10) then rev cur :: split_lines_acc [] r'
               else split_lines_acc (c :: cur) r
           | [] => split_lines_acc (c :: cur) r
           end
  end.

Definition split_lines (s : jsstr) : list jsstr := split_lines_acc [] s.

(** [arr.join(sep)] for a one-unit separator. *)
Fixpoint join_with (sep : N) (l : list jsstr) : jsstr :=
  match l with
  | [] => []
  | [x] => x
  | x :: r => x ++ sep :: join_with sep r
  end.

(** [parseArgs(text)] *)
Definition parseArgs (text : jsstr) : list jsstr :=
  List.filter (fun line => negb (Nat.eqb (length line) 0)) (map trim (split_lines text)).

(** [formatEnv(env)]: [KEY=VALUE] lines joined with ["\n"]. *)
Definition formatEnv (e : env) : jsstr :=
  join_with 10 (map (fun kv => kv.1 ++ 61 :: kv.2) e).

(** The modal shows [args.join("\n")]. *)
Definition formatArgs (args : list jsstr) : jsstr := join_with 10 args.

(** [s.indexOf(c)]; [None] is [-1]. *)
Fixpoint index_of (c : N) (s : jsstr) : option nat :=
  match s with
  | [] => None
  | x :: r => if x =? c then Some 0%nat else option_map S (index_of c r)
  end.

Definition is_digit (c : N) : bool := (48 <=? c) && (c <=? 57).

Definition digits_value (s : jsstr) : N := fold_left (fun acc c => acc * 10 + (c - 48)) s 0.

(** An array index: the canonical decimal form of an integer below
    [2^32 - 1]. Such keys are enumerated first, in ascending order. *)
Definition is_array_index (k : jsstr) : bool :=
  match k with
  | [] => false
  | [48] => true
  | c :: _ => negb (c =? 48) && forallb is_digit k && (digits_value k <=? 4294967294)
  end.

(** A new array-index key among the leading array-index keys. *)
Fixpoint insert_index (k v : jsstr) (e : env) : env :=
  match e with
  | [] => [(k, v)]
  | (k', v') :: r =>
      if is_array_index k' && (digits_value k' <? digits_value k)
      then (k', v') :: insert_index k v r
      else (k, v) :: e
  end.

(** [obj[k] = v] on an ordinary object created by [{}], as the list of its
    own properties in enumeration order: the inherited [__proto__] setter
    ignores a string; an existing key keeps its place; a new array index
    goes among the array indices; any other new key goes last. *)
Definition js_set (k v : jsstr) (e : env) : env :=
  if bool_decide (k = s2u "__proto__") then e
  else if bool_decide (k ∈ map fst e) then map (fun kv => if bool_decide (kv.1 = k) then (k, v) else kv) e
  else if is_array_index k then insert_index k v e
  else e ++ [(k, v)].

(** The two error messages of [parseEnv]. *)
Inductive EnvError := EnvMissingSeparator (line : jsstr) | EnvEmptyName.

Fixpoint parse_env_lines (acc : env) (lines : list jsstr) : env * option EnvError :=
  match lines with
  | [] => (acc, None)
  | line :: rest =>
      match index_of 61 line with
      | None => ([], Some (EnvMissingSeparator line))
      | Some sep =>
          let key := trim (firstn sep line) in
          let value := trim (skipn (S sep) line) in
          if Nat.eqb (length key) 0 then ([], Some EnvEmptyName)
          else parse_env_lines (js_set key value acc) rest
      end
  end.

(** A text whose first unit is no white space (of a reversed text: whose
    last unit is none). *)
Definition hd_ok (s : jsstr) : Prop :=
  match s with [] => True | c :: _ => is_js_space c = false end.

(** An argument the dialog gives back unchanged: not empty, no white space
    around it ([a.trim() === a]) and no line feed. *)
Definition good_arg (a : jsstr) : Prop := a <> [] /\ trim a = a /\ ~ In 10 a.

(** An entry [KEY=VALUE] the dialog gives back unchanged: a trimmed
    non-empty key without [=] or line feed, neither an array index nor
    [__proto__]; a trimmed value without line feed. *)
Definition good_entry (kv : jsstr * jsstr) : Prop :=
  kv.1 <> [] /\ trim kv.1 = kv.1 /\ ~ In 61 kv.1 /\ ~ In 10 kv.1 /\ is_array_index kv.1 = false /\
  kv.1 <> s2u "__proto__" /\ trim kv.2 = kv.2 /\ ~ In 10 kv.2.

(** An entry as [parseEnv] can produce it: a trimmed non-empty key without
    [=] or line feed, other than [__proto__]; a trimmed value without line
    feed. *)
Definition parsed_entry (kv : jsstr * jsstr) : Prop :=
  kv.1 <> [] /\ trim kv.1 = kv.1 /\ ~ In 61 kv.1 /\ ~ In 10 kv.1 /\
  kv.1 <> s2u "__proto__" /\ trim kv.2 = kv.2 /\ ~ In 10 kv.2.

(** [parseEnv(text)]: [{ env, error }]. *)
Definition parseEnv (text : jsstr) : env * option EnvError :=
  parse_env_lines [] (List.filter (fun line => negb (Nat.eqb (length line) 0)) (map trim (split_lines text))).

End Dialog.

(* ================================================================== *)
(** * Properties *)

Module JsonFacts.
Import Json.
Local Open Scope N_scope.

Lemma range_check_spec (count : nat) (start c : N) :
  range_check start count = true -> start <= c < start + N.of_nat count ->
  hex_roundtrip c = true.
Proof.
  revert start. induction count as [|k IH]; intros start H Hc; simpl in *; [lia|].
  apply andb_true_iff in H as [H1 H2].
  destruct (N.eqb_spec c start) as [->|Hne]; [exact H1|].
  apply (IH (N.succ start)); [exact H2|lia].
Qed.

Lemma hex_roundtrip_escaped (c : N) :
  c < 32 \/ 55296 <= c <= 57343 -> hex_roundtrip c = true.
Proof.
  intros [Hc|Hc].
  - apply (range_check_spec 32 0); [vm_compute; reflexivity|lia].
  - apply (range_check_spec 2048 55296); [vm_compute; reflexivity|lia].
Qed.

Lemma hex4_unicode_escape (c : N) :
  c < 32 \/ 55296 <= c <= 57343 ->
  hex4 (hex_digit (N.modulo (c / 4096) 16)) (hex_digit (N.modulo (c / 256) 16))
       (hex_digit (N.modulo (c / 16) 16)) (hex_digit (N.modulo c 16)) = Some c.
Proof.
  intros Hc. pose proof (hex_roundtrip_escaped c Hc) as H.
  unfold hex_roundtrip, unicode_escape in H.
  destruct (hex4 _ _ _ _) as [m|]; [|discriminate].
  apply N.eqb_eq in H. subst. reflexivity.
Qed.

Lemma escape_table_unescape (c e : N) :
  escape_table c = Some e -> unescape e = Some c /\ (e =? 117) = false.
Proof.
  unfold escape_table.
  repeat match goal with
  | |- context [c =? ?k] => destruct (N.eqb_spec c k); [subst; intros [= <-]; split; reflexivity|]
  end.
  discriminate.
Qed.

Lemma escape_table_none (c : N) :
  escape_table c = None -> (c =? 34) = false /\ (c =? 92) = false.
Proof.
  unfold escape_table.
  repeat match goal with
  | |- context [c =? ?k] => destruct (N.eqb_spec c k); [discriminate|]
  end.
  intros _. split; reflexivity.
Qed.

Lemma parse_str_unicode_escape (c : N) (rest : jsstr) (s r : jsstr) :
  c < 32 \/ 55296 <= c <= 57343 ->
  parse_str (rest ++ 34 :: r) = Some (s, r) ->
  parse_str ((unicode_escape c ++ rest) ++ 34 :: r) = Some (c :: s, r).
Proof.
  intros Hc IH. unfold unicode_escape. simpl.
  rewrite hex4_unicode_escape by exact Hc. rewrite IH. reflexivity.
Qed.

Lemma parse_str_raw (c : N) (x s r : jsstr) :
  (c =? 34) = false -> (c =? 92) = false -> (c <? 32) = false ->
  parse_str x = Some (s, r) -> parse_str (c :: x) = Some (c :: s, r).
Proof. intros H1 H2 H3 IH. simpl. rewrite H1, H2, H3, IH. reflexivity. Qed.

Lemma surrogate_facts (c : N) :
  is_high c = true \/ is_low c = true ->
  (c =? 34) = false /\ (c =? 92) = false /\ (c <? 32) = false /\ 55296 <= c <= 57343.
Proof.
  unfold is_high, is_low. intros H.
  rewrite !andb_true_iff, !N.leb_le in H.
  split; [apply N.eqb_neq; lia|]. split; [apply N.eqb_neq; lia|].
  split; [apply N.ltb_ge; lia|]. lia.
Qed.

Lemma parse_str_quote_units (n : nat) (s r : jsstr) :
  (length s <= n)%nat -> parse_str (quote_units s ++ 34 :: r) = Some (s, r).
Proof.
  revert s r. induction n as [|n IHn]; intros s r Hlen.
  { destruct s; [reflexivity|simpl in Hlen; lia]. }
  destruct s as [|c rest]; [reflexivity|]. simpl in Hlen.
  simpl quote_units.
  destruct (escape_table c) as [e|] eqn:Ee.
  { destruct (escape_table_unescape c e Ee) as [Hu Hne].
    simpl. rewrite Hne, Hu, (IHn rest r) by lia. reflexivity. }
  destruct (escape_table_none c Ee) as [H34 H92].
  destruct (c <? 32) eqn:Hlt.
  { apply parse_str_unicode_escape; [apply N.ltb_lt in Hlt; left; exact Hlt|]. apply IHn; lia. }
  destruct (is_high c) eqn:Hh.
  { destruct (surrogate_facts c (or_introl Hh)) as (_ & _ & _ & Hc).
    destruct rest as [|d rest'].
    - rewrite <- (app_nil_r (unicode_escape c)).
      apply parse_str_unicode_escape; [right; exact Hc|reflexivity].
    - destruct (is_low d) eqn:Hl.
      + destruct (surrogate_facts d (or_intror Hl)) as (D34 & D92 & D32 & _).
        simpl in Hlen. rewrite <- !app_comm_cons.
        apply parse_str_raw; try assumption.
        apply parse_str_raw; try assumption.
        apply IHn. lia.
      + apply parse_str_unicode_escape; [right; exact Hc|]. apply IHn. lia. }
  destruct (is_low c) eqn:Hl.
  { destruct (surrogate_facts c (or_intror Hl)) as (_ & _ & _ & Hc).
    apply parse_str_unicode_escape; [right; exact Hc|]. apply IHn. lia. }
  rewrite <- app_comm_cons. apply parse_str_raw; try assumption. apply IHn. lia.
Qed.

Lemma parse_str_quote (s r : jsstr) : parse_str (quote_units s ++ 34 :: r) = Some (s, r).
Proof. apply (parse_str_quote_units (length s)). lia. Qed.

Lemma skip_ws_nonws (c : N) (x : jsstr) : is_ws c = false -> skip_ws (c :: x) = c :: x.
Proof. intros H. simpl. rewrite H. reflexivity. Qed.

Lemma parse_elems_S (f : nat) (s : jsstr) :
  parse_elems (S f) s =
  match parse_value f s with
  | Some (v, r) =>
      match skip_ws r with
      | c :: r' =>
          if c =? 44 then
            match parse_elems f r' with Some (vs, r'') => Some (v :: vs, r'') | None => None end
          else if c =? 93 then Some ([v], r')
          else None
      | [] => None
      end
  | None => None
  end.
Proof. reflexivity. Qed.

Lemma parse_members_S (f : nat) (s : jsstr) :
  parse_members (S f) s =
  match skip_ws s with
  | c :: r =>
      if c =? 34 then
        match parse_str r with
        | Some (k, r1) =>
            match skip_ws r1 with
            | d :: r2 =>
                if d =? 58 then
                  match parse_value f r2 with
                  | Some (v, r3) =>
                      match skip_ws r3 with
                      | e :: r4 =>
                          if e =? 44 then
                            match parse_members f r4 with
                            | Some (l, r5) => Some ((k, v) :: l, r5)
                            | None => None
                            end
                          else if e =? 125 then Some ([(k, v)], r4)
                          else None
                      | [] => None
                      end
                  | None => None
                  end
                else None
            | [] => None
            end
        | None => None
        end
      else None
  | [] => None
  end.
Proof. reflexivity. Qed.

Lemma parse_value_quote (f : nat) (s r : jsstr) :
  parse_value (S f) (quote s ++ r) = Some (JStr s, r).
Proof.
  unfold quote. rewrite <- app_comm_cons, <- app_assoc. simpl.
  rewrite parse_str_quote. reflexivity.
Qed.

Lemma join_comma_quote_head (x : jsstr) (l : list jsstr) :
  exists t, join_comma (map quote (x :: l)) = 34 :: t.
Proof.
  destruct l as [|y l]; simpl.
  - eexists. reflexivity.
  - eexists. reflexivity.
Qed.

Lemma join_comma_length {A} (l : list A) (g : A -> jsstr) :
  (forall x, 2 <= length (g x))%nat ->
  (2 * length l <= length (join_comma (map g l)))%nat.
Proof.
  intros Hg. induction l as [|x [|y l] IH]; simpl in *.
  - lia.
  - specialize (Hg x). lia.
  - rewrite length_app. simpl. specialize (Hg x). lia.
Qed.

Lemma quote_length (x : jsstr) : (2 <= length (quote x))%nat.
Proof. unfold quote. simpl. rewrite length_app. simpl. lia. Qed.

Lemma parse_elems_quotes (l : list jsstr) (f : nat) (r : jsstr) :
  l <> [] -> (length l < f)%nat ->
  parse_elems f (join_comma (map quote l) ++ 93 :: r) = Some (map JStr l, r).
Proof.
  revert f. induction l as [|x l IH]; intros f Hne Hf; [congruence|].
  destruct f as [|[|f]]; simpl in Hf; [lia|lia|].
  destruct l as [|y l].
  - change (join_comma (map quote [x])) with (quote x).
    rewrite parse_elems_S. rewrite parse_value_quote. reflexivity.
  - change (join_comma (map quote (x :: y :: l)))
      with (quote x ++ 44 :: join_comma (map quote (y :: l))).
    rewrite <- app_assoc, <- app_comm_cons. rewrite parse_elems_S.
    rewrite parse_value_quote, skip_ws_nonws by reflexivity.
    rewrite IH by (simpl in *; first [congruence|lia]). reflexivity.
Qed.

Lemma parse_stringify_array (l : list jsstr) :
  parse (stringify_array l) = Some (JArr (map JStr l)).
Proof.
  destruct l as [|x l]; [reflexivity|].
  pose proof (join_comma_length (x :: l) quote quote_length) as Hlen.
  destruct (join_comma_quote_head x l) as [t Ht].
  unfold parse, stringify_array.
  set (n := length _).
  assert (Hn : (length (x :: l) < n)%nat) by (subst n; simpl in *; rewrite length_app; simpl; lia).
  assert (E := parse_elems_quotes (x :: l) n [] ltac:(congruence) ltac:(lia)).
  rewrite Ht in E |- *. simpl in E |- *. rewrite E. reflexivity.
Qed.

Lemma parse_members_quotes (e : env) (f : nat) (r : jsstr) :
  e <> [] -> (length e < f)%nat ->
  parse_members f (join_comma (map member e) ++ 125 :: r) = Some (json_members e, r).
Proof.
  revert f. induction e as [|[k v] e IH]; intros f Hne Hf; [congruence|].
  destruct f as [|[|f]]; simpl in Hf; [lia|lia|].
  assert (Hm : forall rest, member (k, v) ++ rest = 34 :: quote_units k ++ 34 :: 58 :: quote v ++ rest).
  { intros rest. unfold member, quote.
    repeat first [rewrite <- app_assoc | rewrite <- app_comm_cons]. reflexivity. }
  destruct e as [|kv' e].
  - change (join_comma (map member [(k, v)])) with (member (k, v)).
    rewrite Hm, parse_members_S, skip_ws_nonws by reflexivity.
    rewrite parse_str_quote, skip_ws_nonws by reflexivity.
    rewrite parse_value_quote, skip_ws_nonws by reflexivity.
    reflexivity.
  - change (join_comma (map member ((k, v) :: kv' :: e)))
      with (member (k, v) ++ 44 :: join_comma (map member (kv' :: e))).
    rewrite <- app_assoc, <- app_comm_cons, Hm, parse_members_S, skip_ws_nonws by reflexivity.
    rewrite parse_str_quote, skip_ws_nonws by reflexivity.
    rewrite parse_value_quote, skip_ws_nonws by reflexivity.
    rewrite IH by (simpl in *; first [congruence|lia]). reflexivity.
Qed.

Lemma obj_set_fresh (k : jsstr) (v : json) (acc : list (jsstr * json)) :
  ~ In k (map fst acc) -> obj_set k v acc = acc ++ [(k, v)].
Proof.
  induction acc as [|[k' v'] acc IH]; intros Hk; [reflexivity|].
  simpl in *. destruct (decide (k = k')) as [->|Hne]; [tauto|].
  rewrite IH by tauto. reflexivity.
Qed.

Lemma obj_build_nodup_acc (l acc : list (jsstr * json)) :
  NoDup (map fst l) -> (forall k, In k (map fst l) -> ~ In k (map fst acc)) ->
  fold_left (fun acc kv => obj_set kv.1 kv.2 acc) l acc = acc ++ l.
Proof.
  revert acc. induction l as [|[k v] l IH]; intros acc Hnd Hfresh; simpl.
  - rewrite app_nil_r. reflexivity.
  - inversion Hnd as [|? ? Hk Hnd']; subst.
    rewrite obj_set_fresh by (apply Hfresh; simpl; auto).
    rewrite IH; [rewrite <- app_assoc; reflexivity|exact Hnd'|].
    intros k' Hk' Hin. rewrite map_app, in_app_iff in Hin. simpl in Hin.
    destruct Hin as [Hin|[<-|[]]]; [|apply Hk; apply list_elem_of_In; exact Hk'].
    apply (Hfresh k'); simpl; auto.
Qed.

Lemma obj_build_nodup (l : list (jsstr * json)) : NoDup (map fst l) -> obj_build l = l.
Proof. intros Hnd. unfold obj_build. apply obj_build_nodup_acc; auto. Qed.

Lemma json_members_keys (e : env) : map fst (json_members e) = map fst e.
Proof. unfold json_members. rewrite map_map. reflexivity. Qed.

Lemma member_head (kv : jsstr * jsstr) (e : env) :
  exists t, join_comma (map member (kv :: e)) = 34 :: t.
Proof.
  destruct kv as [k v]. destruct e as [|kv' e]; simpl.
  - eexists. reflexivity.
  - eexists. reflexivity.
Qed.

Lemma member_length (kv : jsstr * jsstr) : (2 <= length (member kv))%nat.
Proof. unfold member. rewrite length_app. pose proof (quote_length kv.1). lia. Qed.

Lemma parse_stringify_record (e : env) :
  NoDup (map fst e) -> parse (stringify_record e) = Some (JObj (json_members e)).
Proof.
  intros Hnd. destruct e as [|kv e]; [reflexivity|].
  pose proof (join_comma_length (kv :: e) member member_length) as Hlen.
  destruct (member_head kv e) as [t Ht].
  change (stringify_record (kv :: e)) with (123 :: join_comma (map member (kv :: e)) ++ [125]).
  unfold parse.
  set (n := length _).
  assert (Hn : (length (kv :: e) < n)%nat) by (subst n; simpl in *; rewrite length_app; simpl; lia).
  clearbody n.
  assert (E := parse_members_quotes (kv :: e) n [] ltac:(congruence) ltac:(lia)).
  rewrite <- (obj_build_nodup (json_members (kv :: e))) by (rewrite json_members_keys; exact Hnd).
  rewrite Ht in E |- *. simpl in E |- *. rewrite E.
  reflexivity.
Qed.

Lemma string_array_schema_strings (l : list jsstr) :
  string_array_schema (JArr (map JStr l)) = Some l.
Proof.
  simpl. induction l as [|x l IH]; [reflexivity|]. simpl. rewrite IH. reflexivity.
Qed.

Lemma string_record_schema_members (e : env) :
  string_record_schema (JObj (json_members e)) = Some e.
Proof.
  simpl. induction e as [|[k v] e IH]; [reflexivity|]. simpl. rewrite IH. reflexivity.
Qed.

End JsonFacts.

(* ------------------------------------------------------------------ *)
(** ** Running programs *)

Module ProgFacts.

Lemma run_bind {A B} (w : World) (p : Prog A) (f : A -> Prog B) :
  run w (bind p f) =
  match run w p with
  | (w', Ok a) => run w' (f a)
  | (w', Err e) => (w', Err e)
  end.
Proof.
  revert w. induction p as [a|e|k IH|w0 k IH|k IH]; intros w; simpl; auto.
Qed.

Lemma run_await {A} (w : World) (p : Prog A) : run w (await p) = run w p.
Proof.
  unfold await. rewrite run_bind. destruct (run w p) as [w' [a|e]]; reflexivity.
Qed.

Lemma run_catch {A} (w : World) (p : Prog A) (h : Exn -> Prog A) :
  run w (catch p h) =
  match run w p with
  | (w', Ok a) => (w', Ok a)
  | (w', Err e) => run w' (h e)
  end.
Proof.
  revert w. induction p as [a|e|k IH|w0 k IH|k IH]; intros w; simpl; auto.
Qed.

Lemma run_gets {A} (w : World) (f : World -> A) : run w (gets f) = (w, Ok (f w)).
Proof. reflexivity. Qed.

Lemma run_modify (w : World) (f : World -> World) : run w (modify f) = (f w, Ok tt).
Proof. reflexivity. Qed.

Lemma run_listRuns (w : World) (pid : jsstr) :
  run w (listRuns pid) =
  (w, match map_opt fromRunRow (select_runs pid (w_db_runs w)) with Some l => Ok l | None => Err ESchema end).
Proof. unfold listRuns. simpl. destruct (map_opt _ _); reflexivity. Qed.

Lemma run_getState_present (w : World) (pid : jsstr) (st : RunState) :
  w_states w !! pid = Some st -> run w (getState pid) = (w, Ok st).
Proof. intros H. unfold getState. simpl. rewrite H. reflexivity. Qed.

End ProgFacts.

(* ------------------------------------------------------------------ *)
(** ** The run table *)

Module DbFacts.

Lemma insert_desc_perm (r : RunRow) (l : list RunRow) : Permutation (insert_desc r l) (r :: l).
Proof.
  induction l as [|h t IH]; simpl; [reflexivity|].
  destruct (row_updated_at h <? row_updated_at r)%Z; [reflexivity|].
  rewrite IH. apply perm_swap.
Qed.

Lemma sort_desc_perm (l : list RunRow) : Permutation (sort_desc l) l.
Proof.
  unfold sort_desc. rewrite <- (rev_involutive l) at 2. generalize (rev l) as l'.
  intros l'. induction l' as [|r l' IH]; simpl; [reflexivity|].
  rewrite insert_desc_perm, IH. apply Permutation_cons_append.
Qed.

Lemma insert_desc_head_max (r : RunRow) (l : list RunRow) :
  head_max l -> head_max (insert_desc r l).
Proof.
  destruct l as [|h t]; simpl; [constructor|]. intros Ht.
  destruct (row_updated_at h <? row_updated_at r)%Z eqn:Hlt; simpl.
  - apply Z.ltb_lt in Hlt. constructor; [lia|].
    eapply Forall_impl; [exact Ht|]. intros x Hx; simpl in Hx. lia.
  - apply Z.ltb_ge in Hlt. apply List.Forall_forall. intros x Hx.
    apply (Permutation_in _ (insert_desc_perm r t)) in Hx. destruct Hx as [<-|Hx]; [lia|].
    rewrite List.Forall_forall in Ht. apply Ht, Hx.
Qed.

Lemma sort_desc_head_max (l : list RunRow) : head_max (sort_desc l).
Proof.
  unfold sort_desc. generalize (rev l) as l'. intros l'.
  induction l' as [|r l' IH]; simpl; [constructor|]. apply insert_desc_head_max, IH.
Qed.

(** [listRuns] puts first a row of the project with the greatest
    [updated_at]. *)
Lemma select_runs_head_max (pid : jsstr) (rows : list RunRow) (r : RunRow) (rest : list RunRow) :
  select_runs pid rows = r :: rest ->
  In r rows /\ row_project_id r = pid /\
  forall r', In r' rows -> row_project_id r' = pid -> (row_updated_at r' <= row_updated_at r)%Z.
Proof.
  unfold select_runs. intros Hs.
  pose proof (sort_desc_head_max (filter (fun r => bool_decide (row_project_id r = pid)) rows)) as Hm.
  pose proof (sort_desc_perm (filter (fun r => bool_decide (row_project_id r = pid)) rows)) as Hp.
  rewrite Hs in Hm, Hp. simpl in Hm.
  assert (Hr : In r (filter (fun r => bool_decide (row_project_id r = pid)) rows))
    by (apply (Permutation_in _ Hp); left; reflexivity).
  split; [apply list_elem_of_In, list_elem_of_filter in Hr; apply list_elem_of_In, Hr|]. split.
  - assert (Hin : In r (filter (fun r => bool_decide (row_project_id r = pid)) rows))
      by (apply (Permutation_in _ Hp); left; reflexivity).
    apply list_elem_of_In, list_elem_of_filter in Hin. destruct Hin as [Hin _].
    exact (bool_decide_unpack _ Hin).
  - intros r' Hr' Hpid.
    assert (Hin : In r' (r :: rest)).
    { apply (Permutation_in _ (Permutation_sym Hp)). apply list_elem_of_In, list_elem_of_filter.
      split; [apply bool_decide_pack, Hpid|apply list_elem_of_In, Hr']. }
    destruct Hin as [<-|Hin]; [lia|]. rewrite List.Forall_forall in Hm. apply Hm, Hin.
Qed.

Lemma select_runs_nil (pid : jsstr) (rows : list RunRow) :
  select_runs pid rows = [] -> forall r, In r rows -> row_project_id r <> pid.
Proof.
  unfold select_runs. intros Hs r Hr Hpid.
  pose proof (sort_desc_perm (filter (fun r => bool_decide (row_project_id r = pid)) rows)) as Hp.
  rewrite Hs in Hp. apply Permutation_nil in Hp.
  assert (Hin : r ∈ filter (fun r => bool_decide (row_project_id r = pid)) rows).
  { apply list_elem_of_filter. split; [apply bool_decide_pack, Hpid|apply list_elem_of_In, Hr]. }
  rewrite Hp in Hin. apply not_elem_of_nil in Hin. exact Hin.
Qed.

Lemma map_opt_nil {A B} (f : A -> option B) (l : list A) : map_opt f l = Some [] -> l = [].
Proof.
  destruct l as [|x r]; simpl; [auto|]. destruct (f x), (map_opt f r); congruence.
Qed.

Lemma map_opt_cons {A B} (f : A -> option B) (l : list A) (y : B) (ys : list B) :
  map_opt f l = Some (y :: ys) -> exists x r, l = x :: r /\ f x = Some y.
Proof.
  destruct l as [|x r]; simpl; [congruence|]. destruct (f x) eqn:Hf, (map_opt f r); try congruence.
  intros [= <- _]. eauto.
Qed.

(** A stored run reads back as the configuration that was saved; a JS
    object never has two own properties with the same key. *)
Lemma fromRunRow_toRunRow (c : RunConfig) :
  NoDup (map fst (rc_env c)) -> fromRunRow (toRunRow c) = Some c.
Proof.
  intros Hnd. unfold fromRunRow, toRunRow, parse_args, parse_env, args_text, env_text. cbn [row_args row_env].
  assert (Ht : forall l : list jsstr, truthy_str (Some (Json.stringify_array l)) = true) by reflexivity.
  assert (Hr : truthy_str (Some (Json.stringify_record (rc_env c))) = true)
    by (unfold Json.stringify_record; destruct (rc_env c); reflexivity).
  rewrite Ht, Hr, JsonFacts.parse_stringify_array, (JsonFacts.parse_stringify_record _ Hnd).
  rewrite JsonFacts.string_array_schema_strings, JsonFacts.string_record_schema_members.
  destruct c; reflexivity.
Qed.

Lemma upsert_run_In (r : RunRow) (rows : list RunRow) : In r (upsert_run r rows).
Proof.
  induction rows as [|r' rows IH]; simpl; [auto|].
  destruct (decide (row_id r' = row_id r)); simpl; auto.
Qed.

Lemma upsert_run_readable (r : RunRow) (rows : list RunRow) :
  fromRunRow r <> None -> Forall (fun x => fromRunRow x <> None) rows ->
  Forall (fun x => fromRunRow x <> None) (upsert_run r rows).
Proof.
  intros Hr Hrows. induction Hrows as [|r' rows Hr' Hrows IH]; simpl; [constructor; auto|].
  destruct (decide (row_id r' = row_id r)); constructor; auto.
Qed.

Lemma map_opt_all {A B} (f : A -> option B) (l : list A) :
  Forall (fun x => f x <> None) l ->
  exists l', map_opt f l = Some l' /\ forall x y, In x l -> f x = Some y -> In y l'.
Proof.
  induction 1 as [|x l Hx Hl IH]; [exists []; split; [reflexivity|intros ? ? []]|].
  destruct (f x) as [y|] eqn:Hf; [|congruence]. destruct IH as [l' [Hm Hin]].
  exists (y :: l'). simpl. rewrite Hf, Hm. split; [reflexivity|].
  intros x' y' [<-|Hx'] Hy'; [left; congruence|right; eauto].
Qed.

Lemma select_runs_In (pid : jsstr) (rows : list RunRow) (r : RunRow) :
  In r rows -> row_project_id r = pid -> In r (select_runs pid rows).
Proof.
  intros Hr Hpid. unfold select_runs. apply (Permutation_in _ (Permutation_sym (sort_desc_perm _))).
  apply list_elem_of_In, list_elem_of_filter. split; [apply bool_decide_pack, Hpid|apply list_elem_of_In, Hr].
Qed.

Lemma select_runs_incl (pid : jsstr) (rows : list RunRow) (r : RunRow) :
  In r (select_runs pid rows) -> In r rows.
Proof.
  unfold select_runs. intros Hr. apply (Permutation_in _ (sort_desc_perm _)) in Hr.
  apply list_elem_of_In, list_elem_of_filter in Hr. apply list_elem_of_In, Hr.
Qed.

End DbFacts.

Module RunServiceFacts.
Import ProgFacts DbFacts.

(** ** C1 *)

(** Claim C1: when the process bound to a registered run exits, the exit
    handler records [stopped] if the run's [stopRequested] flag is set
    (whatever the exit code), otherwise [failed] for a null or non-zero code
    and [succeeded] for 0; the final state keeps that code in [lastExitCode]
    and the exit time in [finishedAt]. *)
Theorem exit_handler_classifies_outcome (w : World) (project : Project) (command : RunCommand)
    (tabId : jsstr) (exitCode : option Z) (rp : RunProcess) :
  states_keyed (w_states w) ->
  w_processes w !! project_id project = Some rp ->
  exists st,
    w_states (run w (onExit_handler project command tabId exitCode)).1 !! project_id project = Some st /\
    st_lastExitCode st = exitCode /\
    st_finishedAt st = Some (w_clock w) /\
    (rp_stopRequested rp = true -> st_status st = Stopped) /\
    (rp_stopRequested rp = false -> (exitCode = None \/ exists c, exitCode = Some c /\ c <> 0%Z) ->
       st_status st = Failed) /\
    (rp_stopRequested rp = false -> exitCode = Some 0%Z -> st_status st = Succeeded).
Proof.
  intros Hk Hp.
  assert (Hcl : forall s, s = classify (rp_stopRequested rp) exitCode ->
    (rp_stopRequested rp = true -> s = Stopped) /\
    (rp_stopRequested rp = false -> (exitCode = None \/ exists c, exitCode = Some c /\ c <> 0%Z) ->
       s = Failed) /\
    (rp_stopRequested rp = false -> exitCode = Some 0%Z -> s = Succeeded)).
  { intros st ->. unfold classify. split; [intros ->; reflexivity|]. split.
    - intros -> [->|[c [-> Hc]]]; [reflexivity|]. apply Z.eqb_neq in Hc. rewrite Hc. reflexivity.
    - intros -> ->. reflexivity. }
  unfold onExit_handler. cbn. rewrite Hp.
  destruct (w_states w !! project_id project) as [cur|] eqn:Hs; cbn.
  - assert (Hid : st_projectId cur = project_id project) by (apply (Hk _ _ Hs)).
    destruct (cmd_runId command) as [[|x r]|]; cbn;
    destruct (classify (rp_stopRequested rp) exitCode) eqn:Hc; cbn; rewrite Hid, lookup_insert_eq;
    (eexists; split; [reflexivity|cbn; split; [reflexivity|split; [reflexivity|apply Hcl; reflexivity]]]).
  - destruct (cmd_runId command) as [[|x r]|]; cbn;
    destruct (classify (rp_stopRequested rp) exitCode) eqn:Hc; cbn; rewrite lookup_insert_eq;
    (eexists; split; [reflexivity|cbn; split; [reflexivity|split; [reflexivity|apply Hcl; reflexivity]]]).
Qed.

(** Witness: the run of [demo_project] was asked to stop, then exits. *)
Lemma exit_handler_classifies_outcome_witness :
  let rp := mkRunProcess (uuid_of 1) true PtyType 2 in
  let w := upd_processes (<[s2u "p1" := rp]>) (demo_world true true false) in
  states_keyed (w_states w) /\ w_processes w !! project_id demo_project = Some rp /\
  exists st,
    w_states (run w (onExit_handler demo_project (mkRunCommand (s2u "npm") [] [] (s2u "/w/demo") None)
                       (uuid_of 1) (Some 130%Z))).1 !! project_id demo_project = Some st /\
    st_lastExitCode st = Some 130%Z /\
    st_finishedAt st = Some 1000%Z /\
    (rp_stopRequested rp = true -> st_status st = Stopped) /\
    (rp_stopRequested rp = false -> (Some 130%Z = None \/ exists c, Some 130%Z = Some c /\ c <> 0%Z) ->
       st_status st = Failed) /\
    (rp_stopRequested rp = false -> Some 130%Z = Some 0%Z -> st_status st = Succeeded).
Proof.
  cbv zeta. split; [apply map_Forall_empty|]. split; [reflexivity|].
  apply (exit_handler_classifies_outcome
           (upd_processes (<[s2u "p1" := mkRunProcess (uuid_of 1) true PtyType 2]>) (demo_world true true false))
           demo_project (mkRunCommand (s2u "npm") [] [] (s2u "/w/demo") None) (uuid_of 1) (Some 130%Z)
           (mkRunProcess (uuid_of 1) true PtyType 2)).
  - apply map_Forall_empty.
  - reflexivity.
Defined.

(** ** C2 *)

(** The guard of [start]: on a project whose state is [starting] or
    [running], [start] throws [RunAlreadyInProgress] and the world is left
    exactly as it was. *)
Lemma start_rejects_active (w : World) (project : Project) (o : RunOverrides) (st : RunState) :
  w_states w !! project_id project = Some st -> is_active (st_status st) = true ->
  run w (start project o) = (w, Err (ERunAlreadyInProgress (project_id project))).
Proof.
  intros Hs Ha. unfold start. rewrite run_bind, (run_getState_present _ _ _ Hs).
  cbn iota beta. rewrite Ha. reflexivity.
Qed.

(** Claim C2: the guard does not keep two [start] calls apart.  Two calls
    [start(P, {command: "npm"})] issued back to back on an idle project, each
    job running up to its next [await] in turn, both pass the guard (the
    state becomes [starting] only after [await resolveCommand]): both spawn a
    PTY, both create a session and both resolve with a tab id. *)
Theorem double_start_both_pass_guard :
  let c := schedule (alternate 20)
             (demo_world true true false, [start demo_project npm_overrides; start demo_project npm_overrides]) in
  c.2 = [Ret (uuid_of 1); Ret (uuid_of 4)] /\
  w_log c.1 =
    [EvPersist (s2u "p1") Starting; EvPersist (s2u "p1") Starting;
     EvStateSet (s2u "p1") Starting; EvSpawn NativePty (s2u "npm") true;
     EvStateSet (s2u "p1") Starting; EvSpawn NativePty (s2u "npm") true;
     EvSessionCreated (uuid_of 1); EvSessionCreated (uuid_of 4);
     EvPersist (s2u "p1") Running; EvPersist (s2u "p1") Running;
     EvStateSet (s2u "p1") Running; EvStateSet (s2u "p1") Running].
Proof. split; vm_compute; reflexivity. Qed.

(** ** C4 *)

(** Claim C4: the ShellAdapter reports a null exit code as 0.  A run of
    [demo_project] that fell back to the ShellAdapter (PTY spawn failed,
    subprocess spawn succeeded, adapter handle 4) and whose subprocess closes
    with [code: null] without any stop request is recorded as [succeeded]
    with exit code 0, and no failure toast is raised. *)
Theorem shell_close_null_reported_as_success :
  let w1 := (run (demo_world false true false) (start demo_project npm_overrides)).1 in
  let w2 := (run w1 (process_exit 4 None)).1 in
  closeHandler_code None = 0%Z /\
  option_map rp_stopRequested (w_processes w1 !! project_id demo_project) = Some false /\
  option_map st_status (w_states w2 !! project_id demo_project) = Some Succeeded /\
  option_map st_lastExitCode (w_states w2 !! project_id demo_project) = Some (Some 0%Z) /\
  w_toast w2 = None.
Proof. split; [|split; [|split; [|split]]]; vm_compute; reflexivity. Qed.

(** ** C8 *)

(** [dispose_all] never throws. *)
Lemma run_dispose_all (w : World) (ds : list Disposable) :
  exists w', run w (dispose_all ds) = (w', Ok tt).
Proof.
  revert w. induction ds as [|d ds IH]; intros w; [eexists; reflexivity|].
  cbn [dispose_all]. rewrite run_bind.
  destruct d; cbn; apply IH.
Qed.

(** Running the disposables of a tab logs nothing and keeps, for every
    process, whether it exists, its backend and whether its [kill] throws. *)
Lemma dispose_all_kill_view (w : World) (ds : list Disposable) (p : nat) :
  w_log (run w (dispose_all ds)).1 = w_log w /\
  option_map (fun x => (pty_backend x, pty_kill_throws x)) (w_ptys (run w (dispose_all ds)).1 !! p) =
  option_map (fun x => (pty_backend x, pty_kill_throws x)) (w_ptys w !! p).
Proof.
  revert w. induction ds as [|d ds IH]; intros w; [split; reflexivity|].
  cbn [dispose_all]. rewrite run_bind.
  assert (Hd : w_log (run w (dispose_one d)).1 = w_log w /\
     option_map (fun x => (pty_backend x, pty_kill_throws x)) (w_ptys (run w (dispose_one d)).1 !! p) =
     option_map (fun x => (pty_backend x, pty_kill_throws x)) (w_ptys w !! p)).
  { destruct d as [q lid|t|q lid|q]; cbn; split; try reflexivity;
    destruct (w_ptys w !! q) as [y|] eqn:Hy; try reflexivity;
    (destruct (decide (q = p)) as [->|Hne];
     [rewrite lookup_insert_eq, Hy; reflexivity|rewrite lookup_insert_ne by exact Hne; reflexivity]). }
  replace (run w (dispose_one d)) with ((run w (dispose_one d)).1, @Ok unit tt) by (destruct d; reflexivity).
  destruct (IH (run w (dispose_one d)).1) as [IH1 IH2].
  split; [rewrite IH1; apply Hd|rewrite IH2; apply Hd].
Qed.

(** [TerminalService.dispose(id)] never throws: a throwing [kill] (or a
    process that is already gone) is caught and [console.error] is logged;
    otherwise the kill is logged; then the session is disposed. *)
Lemma terminal_dispose_never_throws (w : World) (id : jsstr) :
  (run w (terminal_dispose id)).2 = Ok tt /\
  forall tab, w_tabs w !! id = Some tab ->
    w_log (run w (terminal_dispose id)).1 =
      w_log w ++
      (if match w_ptys w !! tab_pty tab with
          | None => true
          | Some x => match pty_backend x with NativePty => pty_kill_throws x | ShellAdapterBackend => false end
          end
       then [EvConsoleError] else [EvKill (tab_pty tab) None]) ++
      [EvSessionDisposed id].
Proof.
  unfold terminal_dispose. rewrite run_bind, run_gets. cbv beta iota.
  destruct (w_tabs w !! id) as [tab|]; [|split; [reflexivity|intros ? [=]]].
  rewrite run_bind. destruct (run_dispose_all w (tab_disposables tab)) as [w1 E].
  destruct (dispose_all_kill_view w (tab_disposables tab) (tab_pty tab)) as [Hl Hp].
  rewrite E in Hl, Hp |- *. cbn [fst] in Hl, Hp.
  rewrite run_bind.
  enough (Hg : run w1 (catch (pty_kill (tab_pty tab) None) (fun _ => log EvConsoleError)) =
      (upd_log (fun l => l ++
        (if match w_ptys w !! tab_pty tab with
            | None => true
            | Some x => match pty_backend x with NativePty => pty_kill_throws x | ShellAdapterBackend => false end
            end
         then [EvConsoleError] else [EvKill (tab_pty tab) None])) w1, Ok tt)).
  { rewrite Hg. cbn. split; [reflexivity|]. intros tab' [= <-]. rewrite Hl, <- !app_assoc. reflexivity. }
  destruct (w_ptys w1 !! tab_pty tab) as [x|] eqn:Hx; destruct (w_ptys w !! tab_pty tab) as [y|];
    cbn in Hp; try discriminate.
  - injection Hp as Hb Hkt. rewrite run_catch. unfold pty_kill. rewrite run_bind, run_gets. cbv beta iota.
    rewrite Hx. rewrite Hb, Hkt.
    destruct (pty_backend y); [destruct (pty_kill_throws y)|]; reflexivity.
  - rewrite run_catch. unfold pty_kill. rewrite run_bind, run_gets. cbv beta iota. rewrite Hx. reflexivity.
Qed.

(** Witness: the session of a run of [demo_project] on a native PTY whose
    [kill] throws. *)
Lemma terminal_dispose_never_throws_witness :
  let w := (run (mkWorld ∅ None ∅ [s2u "p1"] [] [] ∅ ∅ ∅ 0 1000%Z false true true false true [])
              (start demo_project npm_overrides)).1 in
  let tab := match w_tabs w !! uuid_of 1 with
             | Some t => t | None => mkTab [] [] [] [] [] [] 0 0 [] RunTab end in
  (run w (terminal_dispose (uuid_of 1))).2 = Ok tt /\
  w_tabs w !! uuid_of 1 = Some tab /\
  w_log (run w (terminal_dispose (uuid_of 1))).1 = w_log w ++ [EvConsoleError] ++ [EvSessionDisposed (uuid_of 1)].
Proof.
  intros w tab.
  assert (Ht : w_tabs w !! uuid_of 1 = Some tab) by (vm_compute; reflexivity).
  destruct (terminal_dispose_never_throws w (uuid_of 1)) as [H1 H2].
  split; [exact H1|]. split; [exact Ht|].
  rewrite (H2 tab Ht). vm_compute. reflexivity.
Defined.

(** Claim C8: [TerminalService.write] does not catch a failing PTY write.  A
    run of [demo_project] on a native PTY whose [write] throws gets the live
    session [uuid-1]; [write] on that session rejects with the PTY's error. *)
Theorem terminal_write_propagates_pty_failure :
  let r := run (demo_world true true true) (start demo_project npm_overrides) in
  r.2 = Ok (uuid_of 1) /\
  option_map tab_pty (w_tabs r.1 !! uuid_of 1) = Some 2 /\
  (run r.1 (terminal_write (uuid_of 1) (s2u "x"))).2 = Err EWrite.
Proof. repeat split; vm_compute; reflexivity. Qed.

(** ** C3 *)

(** [resolveCommand] only reads when the project has a state. *)
Lemma resolve_pure (w : World) (project : Project) (o : RunOverrides) (st : RunState) :
  w_states w !! project_id project = Some st ->
  (run w (resolveCommand project o)).1 = w.
Proof.
  intros Hs. unfold resolveCommand.
  destruct (ov_command o) as [[|x c]|]; [| reflexivity |];
  unfold resolve_saved; rewrite run_bind, (run_getState_present _ _ _ Hs); cbv beta iota;
  (destruct (st_lastCommand st) as [[|y d]|]; [| reflexivity |]);
  rewrite run_bind, run_await, run_listRuns;
  (destruct (map_opt _ _) as [[|sel l]|]; reflexivity).
Qed.

(** Claim C3 (as the code has it): the command comes from the override when
    it is a non-empty string; otherwise from the state's [lastCommand] when it
    is a non-empty string; otherwise from the first of [listRuns], a stored
    run of the project with the greatest [updated_at].  In every case the
    overrides' args, env, cwd and runId, when given, win over the stored
    ones.  When nothing resolves [start] throws [MissingRunConfiguration] and
    the world is left as it was: nothing is spawned, persisted or logged. *)
Theorem resolve_command_order (w : World) (project : Project) (o : RunOverrides) (st : RunState) :
  w_states w !! project_id project = Some st ->
  let pid := project_id project in
  let res := (run w (resolveCommand project o)).2 in
  (forall c, ov_command o = Some c -> c <> [] ->
     res = Ok (Some (mkRunCommand c (nullish (ov_args o) []) (nullish (ov_env o) [])
                       (nullish (ov_cwd o) (project_path project)) (ov_runId o)))) /\
  (forall c, truthy_str (ov_command o) = false -> st_lastCommand st = Some c -> c <> [] ->
     res = Ok (Some (mkRunCommand c (nullish (ov_args o) (st_lastArgs st))
                       (nullish (ov_env o) (st_lastEnv st))
                       (nullish (ov_cwd o) (nullish (st_lastCwd st) (project_path project)))
                       (match ov_runId o with Some r => Some r | None => st_lastRunId st end)))) /\
  (truthy_str (ov_command o) = false -> truthy_str (st_lastCommand st) = false ->
     match map_opt fromRunRow (select_runs pid (w_db_runs w)) with
     | None => res = Err ESchema
     | Some [] => res = Ok None /\ forall r, In r (w_db_runs w) -> row_project_id r <> pid
     | Some (sel :: _) =>
         res = Ok (Some (mkRunCommand (rc_command sel) (nullish (ov_args o) (rc_args sel))
                           (nullish (ov_env o) (rc_env sel))
                           (nullish (ov_cwd o) (nullish (rc_cwd sel) (project_path project)))
                           (match ov_runId o with Some r => Some r | None => Some (rc_id sel) end))) /\
         exists row, In row (w_db_runs w) /\ row_project_id row = pid /\ fromRunRow row = Some sel /\
           forall r', In r' (w_db_runs w) -> row_project_id r' = pid ->
             (row_updated_at r' <= row_updated_at row)%Z
     end) /\
  (is_active (st_status st) = false -> res = Ok None ->
     run w (start project o) = (w, Err (EMissingRunConfiguration pid))).
Proof.
  intros Hs pid res. subst pid res. split; [|split; [|split]].
  - intros c Hc Hne. unfold resolveCommand. rewrite Hc.
    destruct c as [|x c]; [congruence|reflexivity].
  - intros c Ho Hc Hne. unfold resolveCommand.
    destruct (ov_command o) as [[|x c']|]; [| discriminate |];
    unfold resolve_saved; rewrite run_bind, (run_getState_present _ _ _ Hs); cbv beta iota;
    rewrite Hc; (destruct c as [|y d]; [congruence|reflexivity]).
  - intros Ho Hc. unfold resolveCommand.
    assert (Hsaved : (run w (resolve_saved project o)).2 =
      match map_opt fromRunRow (select_runs (project_id project) (w_db_runs w)) with
      | Some [] => Ok None
      | Some (sel :: _) =>
          Ok (Some (mkRunCommand (rc_command sel) (nullish (ov_args o) (rc_args sel))
                      (nullish (ov_env o) (rc_env sel))
                      (nullish (ov_cwd o) (nullish (rc_cwd sel) (project_path project)))
                      (match ov_runId o with Some r => Some r | None => Some (rc_id sel) end)))
      | None => Err ESchema
      end).
    { unfold resolve_saved. rewrite run_bind, (run_getState_present _ _ _ Hs). cbv beta iota.
      destruct (st_lastCommand st) as [[|y d]|]; [| discriminate |];
      rewrite run_bind, run_await, run_listRuns;
      (destruct (map_opt _ _) as [[|sel l]|]; reflexivity). }
    assert (Hres : (run w (match ov_command o with
                           | Some ((_ :: _) as c) =>
                               Ret (Some (mkRunCommand c (nullish (ov_args o) []) (nullish (ov_env o) [])
                                            (nullish (ov_cwd o) (project_path project)) (ov_runId o)))
                           | _ => resolve_saved project o
                           end)).2 = (run w (resolve_saved project o)).2)
      by (destruct (ov_command o) as [[|x c']|]; [reflexivity|discriminate|reflexivity]).
    rewrite Hres, Hsaved.
    destruct (map_opt fromRunRow (select_runs (project_id project) (w_db_runs w))) as [[|sel l]|] eqn:Hm.
    + split; [reflexivity|]. apply select_runs_nil, (map_opt_nil _ _ Hm).
    + split; [reflexivity|].
      destruct (map_opt_cons _ _ _ _ Hm) as [row [rest [Hsel Hf]]].
      destruct (select_runs_head_max _ _ _ _ Hsel) as [Hin [Hpid Hmax]].
      exists row. auto.
    + reflexivity.
  - intros Ha Hnone. unfold start. rewrite run_bind, (run_getState_present _ _ _ Hs).
    cbv beta iota. rewrite Ha. rewrite run_bind, run_await.
    pose proof (resolve_pure w project o st Hs) as Hp.
    destruct (run w (resolveCommand project o)) as [w' r] eqn:E.
    simpl in Hp, Hnone. subst w' r. reflexivity.
Qed.

(** Witness: an idle project with nothing stored. *)
Lemma resolve_command_order_witness :
  let st0 := createIdleState (s2u "p1") 0 in
  let w := upd_states (<[s2u "p1" := st0]>) (demo_world true true false) in
  w_states w !! project_id demo_project = Some st0 /\
  run w (start demo_project no_overrides) = (w, Err (EMissingRunConfiguration (s2u "p1"))).
Proof.
  intros st0 w.
  assert (Hs : w_states w !! project_id demo_project = Some st0) by (subst st0 w; vm_compute; reflexivity).
  split; [exact Hs|].
  destruct (resolve_command_order w demo_project no_overrides st0 Hs) as [_ [_ [_ H]]].
  apply H; subst st0 w; vm_compute; reflexivity.
Defined.

(** Counterexample to claim C3 as worded: with a last-used command the args
    are not the last-used ones when the overrides carry args, and a
    non-null but empty [lastCommand] is skipped: with no stored run, [start]
    throws [MissingRunConfiguration]. *)
Lemma resolve_command_order_counterexample :
  let st0 := mkRunState (s2u "p1") Idle (Some (s2u "r1")) (Some (s2u "npm")) [s2u "start"] []
               None None None None 0 None in
  let w := upd_states (<[s2u "p1" := st0]>) (demo_world true true false) in
  let o := mkRunOverrides None (Some [s2u "--x"]) None None None None in
  let st1 := mkRunState (s2u "p1") Idle None (Some []) [] [] None None None None 0 None in
  let w1 := upd_states (<[s2u "p1" := st1]>) (demo_world true true false) in
  (run w (resolveCommand demo_project o)).2 =
    Ok (Some (mkRunCommand (s2u "npm") [s2u "--x"] [] (s2u "/w/demo") (Some (s2u "r1")))) /\
  st_lastCommand st1 <> None /\
  run w1 (start demo_project no_overrides) = (w1, Err (EMissingRunConfiguration (s2u "p1"))).
Proof. cbv zeta. split; [|split]; [vm_compute; reflexivity|discriminate|vm_compute; reflexivity]. Qed.

(** ** C5 *)

(** Counterexample to claim C5: when both spawns fail the state is not
    rolled back; it stays [starting], also in the store. *)
Lemma start_double_spawn_failure_counterexample :
  let r := run (demo_world false false false) (start demo_project npm_overrides) in
  r.2 = Err (ESpawn ShellAdapterBackend) /\
  option_map st_status (w_states r.1 !! project_id demo_project) = Some Starting /\
  option_map st_tabId (w_states r.1 !! project_id demo_project) = Some None /\
  map srow_status (w_db_status r.1) = [status_text Starting].
Proof. split; [|split; [|split]]; vm_compute; reflexivity. Qed.

(** Claim C5 (as the code has it): when the PTY spawn and the subprocess
    spawn both throw, [start] rejects with the subprocess spawn error after
    exactly one attempt of each; the state it set before spawning stays:
    [starting] (persisted so), no tab id, and no process registered. *)
Theorem start_double_spawn_failure (w : World) (project : Project) (o : RunOverrides)
    (st : RunState) (command : RunCommand) :
  states_keyed (w_states w) ->
  w_states w !! project_id project = Some st ->
  is_active (st_status st) = false ->
  (run w (resolveCommand project o)).2 = Ok (Some command) ->
  w_pty_spawn_ok w = false -> w_shell_spawn_ok w = false ->
  let pid := project_id project in
  let r := run w (start project o) in
  r.2 = Err (ESpawn ShellAdapterBackend) /\
  w_states r.1 !! pid = Some (starting_state st command (w_clock w)) /\
  st_status (starting_state st command (w_clock w)) = Starting /\
  st_tabId (starting_state st command (w_clock w)) = None /\
  w_processes r.1 = w_processes w /\
  w_log r.1 = w_log w ++ [EvPersist pid Starting; EvStateSet pid Starting;
                          EvSpawn NativePty (cmd_command command) false; EvConsoleWarn;
                          EvSpawn ShellAdapterBackend (cmd_command command) false].
Proof.
  intros Hk Hs Ha Hres Hpty Hsh pid r. subst pid r.
  assert (Hid : st_projectId st = project_id project) by apply (Hk _ _ Hs).
  unfold start. rewrite run_bind, (run_getState_present _ _ _ Hs).
  cbv beta iota. rewrite Ha. rewrite run_bind, run_await.
  pose proof (resolve_pure w project o st Hs) as Hp.
  destruct (run w (resolveCommand project o)) as [w' res] eqn:E.
  simpl in Hp, Hres. subst w' res. cbv beta iota.
  destruct w as [a1 a2 a3 a4 a5 a6 a7 a8 a9 a10 a11 a12 a13 a14 a15 a16 a17].
  simpl in Hpty, Hsh. subst a13 a14.
  cbn. rewrite Hid, lookup_insert_eq.
  split; [reflexivity|split; [reflexivity|split; [reflexivity|split; [reflexivity|split; [reflexivity|]]]]].
  rewrite <- !app_assoc. reflexivity.
Qed.


(** The idle [demo_project], known to the state map. *)
Lemma demo_idle_keyed (pty_ok shell_ok write_throws : bool) :
  states_keyed (w_states (upd_states (<[s2u "p1" := createIdleState (s2u "p1") 0]>)
                            (demo_world pty_ok shell_ok write_throws))).
Proof. apply map_Forall_insert_2; [reflexivity|apply map_Forall_empty]. Qed.

(** Witness: [start(P, {command: "npm"})] with both spawns failing. *)
Lemma start_double_spawn_failure_witness :
  let st0 := createIdleState (s2u "p1") 0 in
  let w := upd_states (<[s2u "p1" := st0]>) (demo_world false false false) in
  (run w (start demo_project npm_overrides)).2 = Err (ESpawn ShellAdapterBackend) /\
  w_states (run w (start demo_project npm_overrides)).1 !! s2u "p1" =
    Some (starting_state st0 (mkRunCommand (s2u "npm") [] [] (s2u "/w/demo") None) 1000%Z).
Proof.
  intros st0 w.
  assert (Hs : w_states w !! project_id demo_project = Some st0) by (subst st0 w; vm_compute; reflexivity).
  destruct (start_double_spawn_failure w demo_project npm_overrides st0
              (mkRunCommand (s2u "npm") [] [] (s2u "/w/demo") None)
              (demo_idle_keyed false false false) Hs
              ltac:(subst st0; reflexivity) ltac:(subst st0 w; vm_compute; reflexivity)
              eq_refl eq_refl) as [H1 [H2 _]].
  split; [exact H1|exact H2].
Defined.

(** ** C6 *)

(** Claim C6: [stop] does nothing without a registered process; otherwise it
    marks the process [stopRequested] and calls its [kill] (the log shows the
    kill, or the caught failures of both attempts); it never touches the state
    map and never rejects. *)
Theorem stop_leaves_state_unchanged (w : World) (projectId : jsstr) :
  let r := run w (stop projectId) in
  w_states r.1 = w_states w /\
  r.2 = Ok tt /\
  (w_processes w !! projectId = None -> r = (w, Ok tt)) /\
  (forall rp, w_processes w !! projectId = Some rp ->
     w_processes r.1 !! projectId = Some (mkRunProcess (rp_tabId rp) true (rp_type rp) (rp_pty rp)) /\
     exists tr, w_log r.1 = w_log w ++ tr /\
       (tr = [EvKill (rp_pty rp) (Some (s2u "SIGINT"))] \/ tr = [EvKill (rp_pty rp) None] \/
        tr = [EvConsoleError; EvConsoleError])).
Proof.
  intros r. subst r. unfold stop. rewrite run_bind, run_gets. cbv beta iota.
  destruct (w_processes w !! projectId) as [rp|] eqn:Hp.
  - rewrite run_bind, run_modify. cbv beta iota. rewrite run_await. unfold run_kill.
    rewrite run_bind, run_await, run_gets. cbv beta iota. rewrite run_catch. unfold pty_kill.
    cbn. destruct (rp_type rp) eqn:Ht, (w_is_windows w); cbn;
    (destruct (w_ptys w !! rp_pty rp) as [x|] eqn:Hx; cbn;
     [destruct (pty_backend x) eqn:Hb; cbn; [destruct (pty_kill_throws x) eqn:Hkt|]|]);
    cbn; rewrite ?Hx; cbn; rewrite ?Hb; cbn; rewrite ?Hkt; cbn;
    (split; [reflexivity|]; split; [reflexivity|]; split; [discriminate|];
     intros rp' [= <-]; rewrite lookup_insert_eq; split; [rewrite Ht; reflexivity|];
     eexists; split; [rewrite <- ?app_assoc; reflexivity|];
     first [left; reflexivity | right; first [left; reflexivity | right; reflexivity]]).
  - split; [reflexivity|]. split; [reflexivity|]. split; [reflexivity|]. intros rp' [=].
Qed.

(** Witness: [stop] on the running [demo_project]. *)
Lemma stop_leaves_state_unchanged_witness :
  let w := (run (demo_world true true false) (start demo_project npm_overrides)).1 in
  w_processes w !! s2u "p1" = Some (mkRunProcess (uuid_of 1) false PtyType 2) /\
  w_processes (run w (stop (s2u "p1"))).1 !! s2u "p1" = Some (mkRunProcess (uuid_of 1) true PtyType 2).
Proof.
  intros w.
  assert (H : w_processes w !! s2u "p1" = Some (mkRunProcess (uuid_of 1) false PtyType 2))
    by (subst w; vm_compute; reflexivity).
  split; [exact H|].
  destruct (stop_leaves_state_unchanged w (s2u "p1")) as [_ [_ [_ H4]]].
  exact (proj1 (H4 _ H)).
Defined.

(** ** C7 *)

(** Counterexample to claim C7 as worded: after the run of [demo_project]
    exits with code 0 the state has left [running] for [succeeded], yet its
    session [uuid-1] is still registered and the state still points at it;
    the exit logs no disposal. *)
Lemma exit_keeps_session_counterexample :
  let w1 := (run (demo_world true true false) (start demo_project npm_overrides)).1 in
  let w2 := (run w1 (process_exit 2 (Some 0%Z))).1 in
  option_map st_status (w_states w1 !! project_id demo_project) = Some Running /\
  option_map st_status (w_states w2 !! project_id demo_project) = Some Succeeded /\
  option_map st_tabId (w_states w2 !! project_id demo_project) = Some (Some (uuid_of 1)) /\
  option_map tab_id (w_tabs w2 !! uuid_of 1) = Some (uuid_of 1) /\
  w_log w2 = w_log w1 ++ [EvPersist (s2u "p1") Succeeded; EvStateSet (s2u "p1") Succeeded].
Proof. split; [|split; [|split; [|split]]]; vm_compute; reflexivity. Qed.

(** The exit handler never touches the terminal registry, and the final
    state keeps the session's tab id. *)
Lemma onExit_handler_keeps_tabs (w : World) (project : Project) (command : RunCommand)
    (tabId : jsstr) (exitCode : option Z) :
  w_tabs (run w (onExit_handler project command tabId exitCode)).1 = w_tabs w.
Proof.
  unfold onExit_handler. cbn.
  destruct (w_states w !! project_id project);
  destruct (cmd_runId command) as [[|x rr]|]; cbn;
  destruct (classify _ exitCode); reflexivity.
Qed.

Lemma deliver_all_keeps_tabs (w : World) (ls : list (nat * Listener)) (code : option Z) :
  w_tabs (run w (deliver_all ls code)).1 = w_tabs w.
Proof.
  revert w. induction ls as [|[lid l] ls IH]; intros w; [reflexivity|].
  cbn [deliver_all]. rewrite run_bind.
  destruct l as [t|project command tabId]; cbn [deliver snd].
  - unfold upd_term. rewrite run_modify. rewrite IH.
    cbn. destruct (w_terms w !! t); reflexivity.
  - pose proof (onExit_handler_keeps_tabs w project command tabId code) as H.
    destruct (run w (onExit_handler project command tabId code)) as [w' [[]|e]]; cbn in H |- *;
    [rewrite IH|]; exact H.
Qed.

(** The exit handler of a run records the session's tab id in the final
    state of the run's project. *)
Lemma onExit_handler_tabId (w : World) (project : Project) (command : RunCommand)
    (tabId : jsstr) (exitCode : option Z) :
  states_keyed (w_states w) ->
  exists st, w_states (run w (onExit_handler project command tabId exitCode)).1 !! project_id project = Some st /\
             st_tabId st = Some tabId.
Proof.
  intros Hk. unfold onExit_handler. cbn.
  destruct (w_states w !! project_id project) as [cur|] eqn:Hs; cbn.
  - assert (Hid : st_projectId cur = project_id project) by (apply (Hk _ _ Hs)).
    destruct (cmd_runId command) as [[|x r]|]; cbn;
    destruct (classify _ exitCode); cbn; rewrite Hid, lookup_insert_eq; eexists; split; reflexivity.
  - destruct (cmd_runId command) as [[|x r]|]; cbn;
    destruct (classify _ exitCode); cbn; rewrite lookup_insert_eq; eexists; split; reflexivity.
Qed.

(** Claim C7 (as the code has it): a successful [start] creates the session
    only after it persisted and published the [starting] state (the events in
    between are the spawn attempts), and then records [running] with the
    session's tab id; the exit listener it registers on the session's process
    is the handler of this run and session.  The exit of a process leaves the
    terminal registry as it is (the session is only disposed by
    [TerminalService.dispose]), and the exit handler's final state keeps the
    session's tab id. *)
Theorem session_created_after_starting (w : World) (project : Project) (o : RunOverrides)
    (st : RunState) (command : RunCommand) (tabId : jsstr) :
  states_keyed (w_states w) ->
  w_states w !! project_id project = Some st ->
  is_active (st_status st) = false ->
  (run w (resolveCommand project o)).2 = Ok (Some command) ->
  (run w (start project o)).2 = Ok tabId ->
  let pid := project_id project in
  let w1 := (run w (start project o)).1 in
  (exists l1,
     (l1 = [EvSpawn NativePty (cmd_command command) true] \/
      l1 = [EvSpawn NativePty (cmd_command command) false; EvConsoleWarn;
            EvSpawn ShellAdapterBackend (cmd_command command) true]) /\
     w_log w1 =
       w_log w ++ [EvPersist pid Starting; EvStateSet pid Starting] ++ l1 ++
       [EvSessionCreated tabId; EvPersist pid Running; EvStateSet pid Running]) /\
  option_map st_tabId (w_states w1 !! pid) = Some (Some tabId) /\
  (exists tab x lid, w_tabs w1 !! tabId = Some tab /\ w_ptys w1 !! tab_pty tab = Some x /\
     In (lid, LRunExit project command tabId) (pty_exit_listeners x)) /\
  (forall w' p code, w_tabs (run w' (process_exit p code)).1 = w_tabs w') /\
  (forall w' code, states_keyed (w_states w') ->
     exists st', w_states (run w' (onExit_handler project command tabId code)).1 !! pid = Some st' /\
                 st_tabId st' = Some tabId).
Proof.
  intros Hk Hs Ha Hres Hok pid w1. subst pid w1.
  split; [|split; [|split; [|split]]].
  4:{ intros w' p code. unfold process_exit. rewrite run_bind, run_gets. cbv beta iota.
      destruct (w_ptys w' !! p) as [x|]; [|reflexivity].
      destruct (pty_backend x); [apply deliver_all_keeps_tabs|].
      destruct (pty_close_wired x); [apply deliver_all_keeps_tabs|reflexivity]. }
  4:{ intros w' code Hk'. apply onExit_handler_tabId, Hk'. }
  all: assert (Hid : st_projectId st = project_id project) by apply (Hk _ _ Hs).
  all: revert Hok; unfold start; rewrite run_bind, (run_getState_present _ _ _ Hs).
  all: cbv beta iota; rewrite Ha; rewrite run_bind, run_await.
  all: pose proof (resolve_pure w project o st Hs) as Hp.
  all: destruct (run w (resolveCommand project o)) as [w' res] eqn:E.
  all: simpl in Hp, Hres; subst w' res; cbv beta iota.
  all: destruct w as [a1 a2 a3 a4 a5 a6 a7 a8 a9 a10 a11 a12 a13 a14 a15 a16 a17].
  all: destruct a13; [|destruct a14]; simpl; rewrite ?Hid; intros Hok; try discriminate.
  - injection Hok as <-. eexists. split; [left; reflexivity|]. rewrite <- !app_assoc. reflexivity.
  - injection Hok as <-. eexists. split; [right; reflexivity|]. rewrite <- !app_assoc. reflexivity.
  - injection Hok as <-. rewrite lookup_insert_eq. reflexivity.
  - injection Hok as <-. rewrite lookup_insert_eq. reflexivity.
  - injection Hok as <-. do 3 eexists. rewrite !lookup_insert_eq. split; [reflexivity|].
    rewrite !lookup_insert_eq. split; [reflexivity|]. cbn. auto.
  - injection Hok as <-. do 3 eexists. rewrite !lookup_insert_eq. split; [reflexivity|].
    rewrite !lookup_insert_eq. split; [reflexivity|]. cbn. auto.
Qed.

(** Witness: [start(P, {command: "npm"})] on the idle [demo_project]. *)
Lemma session_created_after_starting_witness :
  let st0 := createIdleState (s2u "p1") 0 in
  let w := upd_states (<[s2u "p1" := st0]>) (demo_world true true false) in
  exists l1,
    (l1 = [EvSpawn NativePty (s2u "npm") true] \/
     l1 = [EvSpawn NativePty (s2u "npm") false; EvConsoleWarn; EvSpawn ShellAdapterBackend (s2u "npm") true]) /\
    w_log (run w (start demo_project npm_overrides)).1 =
      w_log w ++ [EvPersist (s2u "p1") Starting; EvStateSet (s2u "p1") Starting] ++ l1 ++
      [EvSessionCreated (uuid_of 1); EvPersist (s2u "p1") Running; EvStateSet (s2u "p1") Running].
Proof.
  intros st0 w.
  assert (Hs : w_states w !! project_id demo_project = Some st0) by (subst st0 w; vm_compute; reflexivity).
  destruct (session_created_after_starting w demo_project npm_overrides st0
              (mkRunCommand (s2u "npm") [] [] (s2u "/w/demo") None) (uuid_of 1)
              (demo_idle_keyed true true false) Hs
              ltac:(subst st0; reflexivity) ltac:(subst st0 w; vm_compute; reflexivity)
              ltac:(subst st0 w; vm_compute; reflexivity)) as [H _].
  exact H.
Defined.

(** ** C9 *)

(** [rememberConfiguration] stores the configuration's row (the foreign key
    holds) and leaves the other rows as [upsert_run] has them. *)
Lemma run_rememberConfiguration (w : World) (project : Project) (config : RunConfig) :
  rc_projectId config ∈ w_db_projects w ->
  exists w', run w (rememberConfiguration project config) = (w', Ok tt) /\
             w_db_runs w' = upsert_run (toRunRow config) (w_db_runs w).
Proof.
  intros Hfk. unfold rememberConfiguration. rewrite run_bind, run_await.
  unfold saveRunConfig. rewrite run_bind. cbn [run yield]. rewrite run_bind, run_gets.
  rewrite (bool_decide_eq_true_2 _ Hfk). cbv beta iota. rewrite run_await, run_modify.
  cbv beta iota. rewrite run_bind.
  destruct w as [a1 a2 a3 a4 a5 a6 a7 a8 a9 a10 a11 a12 a13 a14 a15 a16 a17].
  unfold getState. simpl. destruct (a1 !! project_id project); simpl; eexists; split; reflexivity.
Qed.

(** Claim C9: [rememberConfiguration(project, config)] followed by
    [listRuns(project.id)] lists [config] itself, command, args, env and cwd
    included: the JSON text of args and env reads back unchanged.  The
    configuration belongs to the project, the project exists (the [runs]
    table's foreign key), the env is a JS object (distinct keys), and the rows
    already stored are readable. *)
Theorem remember_then_list_roundtrip (w : World) (project : Project) (config : RunConfig) :
  rc_projectId config = project_id project ->
  project_id project ∈ w_db_projects w ->
  NoDup (map fst (rc_env config)) ->
  Forall (fun r => fromRunRow r <> None) (w_db_runs w) ->
  let r := run w (rememberConfiguration project config) in
  r.2 = Ok tt /\
  exists l, (run r.1 (listRuns (project_id project))).2 = Ok l /\ In config l /\
    exists c, In c l /\ rc_command c = rc_command config /\ rc_args c = rc_args config /\
      rc_env c = rc_env config /\ rc_cwd c = rc_cwd config.
Proof.
  intros Hpid Hfk Hnd Hrows r. subst r.
  rewrite <- Hpid in Hfk.
  destruct (run_rememberConfiguration w project config Hfk) as [w' [-> Hdb]]. cbn [fst snd].
  split; [reflexivity|]. rewrite run_listRuns, Hdb. cbn [snd].
  assert (Hread : Forall (fun x => fromRunRow x <> None)
                    (select_runs (project_id project) (upsert_run (toRunRow config) (w_db_runs w)))).
  { apply List.Forall_forall. intros x Hx. apply select_runs_incl in Hx.
    assert (Hall : Forall (fun x => fromRunRow x <> None) (upsert_run (toRunRow config) (w_db_runs w)))
      by (apply upsert_run_readable; [rewrite (fromRunRow_toRunRow _ Hnd); discriminate|exact Hrows]).
    rewrite List.Forall_forall in Hall. apply Hall, Hx. }
  destruct (map_opt_all _ _ Hread) as [l [Hm Hin]]. rewrite Hm.
  assert (Hc : In config l).
  { apply (Hin (toRunRow config)); [|apply fromRunRow_toRunRow, Hnd].
    apply select_runs_In; [apply upsert_run_In|exact Hpid]. }
  exists l. split; [reflexivity|]. split; [exact Hc|]. exists config. auto 6.
Qed.

(** Witness: a fresh store that knows [demo_project]. *)
Lemma remember_then_list_roundtrip_witness :
  let config := mkRunConfig (s2u "r1") (s2u "p1") (s2u "npm") [s2u "run"; s2u "dev"]
                  [(s2u "PORT", s2u "3000"); (s2u "A", s2u "b")] None None 5%Z in
  let w := demo_world true true false in
  (run w (rememberConfiguration demo_project config)).2 = Ok tt.
Proof.
  intros config w.
  destruct (remember_then_list_roundtrip w demo_project config eq_refl
              ltac:(subst w; vm_compute; left) ltac:(subst config; vm_compute; repeat constructor; set_solver)
              ltac:(subst w; constructor)) as [H _].
  exact H.
Defined.

(** ** C10 *)

Lemma run_listRunStatuses (w : World) :
  run w listRunStatuses =
  (w, match map_opt fromRunStatusRow (w_db_status w) with Some l => Ok l | None => Err ESchema end).
Proof. unfold listRunStatuses. simpl. destruct (map_opt _ _); reflexivity. Qed.

Lemma map_opt_status_ids (rows : list RunStatusRow) (statuses : list RunStatus) :
  map_opt fromRunStatusRow rows = Some statuses ->
  map rs_projectId statuses = map srow_project_id rows.
Proof.
  revert statuses. induction rows as [|r rows IH]; intros statuses; simpl.
  - intros [= <-]. reflexivity.
  - destruct (fromRunStatusRow r) as [x|] eqn:Hr; [|discriminate].
    destruct (map_opt fromRunStatusRow rows) as [xs|]; [|discriminate]. intros [= <-].
    simpl. rewrite (IH xs eq_refl). f_equal.
    unfold fromRunStatusRow in Hr.
    destruct (status_of_text (srow_status r)), (parse_args (srow_last_args r)), (parse_env (srow_last_env r));
      simplify_eq; reflexivity.
Qed.

Section Load.
Variable ids : list jsstr.

Lemma load_rows_tab_none (rows : list RunStatus) (m : gmap jsstr RunState) :
  map_Forall (fun _ st => st_tabId st = None) m ->
  map_Forall (fun _ st => st_tabId st = None) (fold_left (load_step ids) rows m).
Proof.
  revert m. induction rows as [|row rows IH]; intros m Hm; simpl; [exact Hm|].
  apply IH. unfold load_step. case_bool_decide; [|exact Hm].
  apply map_Forall_insert_2; [reflexivity|exact Hm].
Qed.

Lemma load_rows_other (rows : list RunStatus) (m : gmap jsstr RunState) (k : jsstr) :
  k ∉ map rs_projectId rows -> fold_left (load_step ids) rows m !! k = m !! k.
Proof.
  revert m. induction rows as [|row rows IH]; intros m Hk; simpl; [reflexivity|].
  rewrite IH; [|set_solver]. unfold load_step. case_bool_decide; [|reflexivity].
  rewrite lookup_insert_ne; [reflexivity|]. set_solver.
Qed.

Lemma load_rows_lookup (rows : list RunStatus) (m : gmap jsstr RunState) (rs : RunStatus) :
  NoDup (map rs_projectId rows) -> In rs rows -> rs_projectId rs ∈ ids ->
  fold_left (load_step ids) rows m !! rs_projectId rs = Some (state_of_status rs).
Proof.
  revert m. induction rows as [|row rows IH]; intros m Hnd Hin Hid; [destruct Hin|].
  simpl in Hnd |- *. apply NoDup_cons in Hnd as [Hnot Hnd].
  destruct Hin as [<-|Hin].
  - rewrite load_rows_other by exact Hnot. unfold load_step.
    rewrite bool_decide_eq_true_2 by exact Hid. apply lookup_insert_eq.
  - apply IH; assumption.
Qed.

End Load.

Lemma idle_steps_tab_none (now : Z) (projects : list Project) (m : gmap jsstr RunState) :
  map_Forall (fun _ st => st_tabId st = None) m ->
  map_Forall (fun _ st => st_tabId st = None) (fold_left (idle_step now) projects m).
Proof.
  revert m. induction projects as [|p ps IH]; intros m Hm; simpl; [exact Hm|].
  apply IH. unfold idle_step. destruct (m !! project_id p); [exact Hm|].
  apply map_Forall_insert_2; [reflexivity|exact Hm].
Qed.

Lemma idle_steps_keep (now : Z) (projects : list Project) (m : gmap jsstr RunState) (k : jsstr) (v : RunState) :
  m !! k = Some v -> fold_left (idle_step now) projects m !! k = Some v.
Proof.
  revert m. induction projects as [|p ps IH]; intros m Hm; simpl; [exact Hm|].
  apply IH. unfold idle_step. destruct (m !! project_id p) eqn:Hp; [exact Hm|].
  rewrite lookup_insert_ne; [exact Hm|]. congruence.
Qed.

Lemma load_map_unfold (projects : list Project) (rows : list RunStatus) (now : Z) :
  load_map projects rows now =
  fold_left (idle_step now) projects (fold_left (load_step (map project_id projects)) rows ∅).
Proof. reflexivity. Qed.

(** Claim C10: on a freshly constructed service (no process registered),
    [loadPersistedStates(projects)] reloads each stored status of a known
    project verbatim, with every state's tab id null and still no process;
    then, for a project stored as [starting] or [running], [start] rejects
    with [RunAlreadyInProgress] and changes nothing, and [stop] does nothing.
    The status rows are readable and keyed by project id (the table's
    primary key). *)
Theorem load_restores_status_verbatim (w : World) (projects : list Project)
    (statuses : list RunStatus) :
  w_processes w = ∅ ->
  map_opt fromRunStatusRow (w_db_status w) = Some statuses ->
  NoDup (map srow_project_id (w_db_status w)) ->
  let r := run w (loadPersistedStates projects) in
  r.2 = Ok tt /\
  map_Forall (fun _ st => st_tabId st = None) (w_states r.1) /\
  w_processes r.1 = ∅ /\
  (forall rs, In rs statuses -> rs_projectId rs ∈ map project_id projects ->
     w_states r.1 !! rs_projectId rs = Some (state_of_status rs) /\
     st_status (state_of_status rs) = rs_status rs /\
     (is_active (rs_status rs) = true ->
        forall project o, project_id project = rs_projectId rs ->
          run r.1 (start project o) = (r.1, Err (ERunAlreadyInProgress (rs_projectId rs))) /\
          run r.1 (stop (rs_projectId rs)) = (r.1, Ok tt))).
Proof.
  intros Hp Hrows Hnd r. subst r.
  unfold loadPersistedStates. rewrite run_bind, run_await, run_listRunStatuses, Hrows.
  cbv beta iota. rewrite run_bind, run_gets. cbv beta iota. rewrite run_modify.
  cbn [fst snd]. rewrite load_map_unfold.
  rewrite <- (map_opt_status_ids _ _ Hrows) in Hnd.
  split; [reflexivity|]. split.
  { apply idle_steps_tab_none, load_rows_tab_none, map_Forall_empty. }
  split; [exact Hp|].
  intros rs Hin Hid.
  assert (Hl : w_states (upd_states (fun _ => fold_left (idle_step (w_clock w)) projects
                  (fold_left (load_step (map project_id projects)) statuses ∅)) w) !! rs_projectId rs =
               Some (state_of_status rs))
    by (apply idle_steps_keep, load_rows_lookup; assumption).
  split; [exact Hl|]. split; [reflexivity|].
  intros Ha project o Hpid. split.
  - rewrite <- Hpid. apply (start_rejects_active _ _ _ (state_of_status rs)); [rewrite Hpid; exact Hl|exact Ha].
  - unfold stop. rewrite run_bind, run_gets. cbn [w_processes upd_states]. rewrite Hp, lookup_empty.
    reflexivity.
Qed.

(** Witness: a store holding [demo_project]'s status [running] from before a
    restart. *)
Lemma load_restores_status_verbatim_witness :
  let row := mkRunStatusRow (s2u "p1") (s2u "running") None (Some (s2u "npm")) (Some (s2u "[]"))
               (Some (s2u "{}")) None None (Some 1%Z) None 1%Z in
  let w := upd_db_status (fun _ => [row]) (demo_world true true false) in
  let w' := (run w (loadPersistedStates [demo_project])).1 in
  run w' (start demo_project npm_overrides) = (w', Err (ERunAlreadyInProgress (s2u "p1"))).
Proof.
  intros row w w'.
  destruct (load_restores_status_verbatim w [demo_project]
              [mkRunStatus (s2u "p1") Running None (Some (s2u "npm")) [] [] None None (Some 1%Z) None 1%Z]
              ltac:(subst w; reflexivity) ltac:(subst row w; vm_compute; reflexivity)
              ltac:(subst row w; vm_compute; constructor; [set_solver|constructor]))
    as [_ [_ [_ H]]].
  destruct (H (mkRunStatus (s2u "p1") Running None (Some (s2u "npm")) [] [] None None (Some 1%Z) None 1%Z)
              (or_introl eq_refl) ltac:(vm_compute; left)) as [_ [_ H2]].
  exact (proj1 (H2 eq_refl demo_project npm_overrides eq_refl)).
Defined.

(** ** The guard, as a property of its own *)

(** [start] on a project whose state is [starting] or [running] throws
    [RunAlreadyInProgress] before any persistence, state or registry change. *)
Lemma start_guard_leaves_world (w : World) (project : Project) (o : RunOverrides) (st : RunState) :
  w_states w !! project_id project = Some st -> is_active (st_status st) = true ->
  run w (start project o) = (w, Err (ERunAlreadyInProgress (project_id project))).
Proof. apply start_rejects_active. Qed.

Lemma start_guard_leaves_world_witness :
  let st0 := mkRunState (s2u "p1") Running None (Some (s2u "npm")) [] [] None None None None 0 (Some (uuid_of 1)) in
  let w := upd_states (<[s2u "p1" := st0]>) (demo_world true true false) in
  run w (start demo_project npm_overrides) = (w, Err (ERunAlreadyInProgress (s2u "p1"))).
Proof.
  intros st0 w.
  exact (start_guard_leaves_world w demo_project npm_overrides st0
           ltac:(subst st0 w; vm_compute; reflexivity) eq_refl).
Defined.

End RunServiceFacts.

Module DialogFacts.
Import Dialog.
Local Open Scope N_scope.


Lemma hd_ok_app (l m : jsstr) : l <> [] -> hd_ok (l ++ m) -> hd_ok l.
Proof. destruct l; simpl; [congruence|auto]. Qed.

Lemma hd_ok_rev_cons (c d : N) (x : jsstr) : hd_ok (rev (c :: d :: x)) -> hd_ok (rev (d :: x)).
Proof.
  simpl. apply hd_ok_app.
  intros H. apply app_eq_nil in H. destruct H as [_ H]. discriminate.
Qed.

Lemma drop_space_hd (s : jsstr) : hd_ok (drop_space s).
Proof.
  induction s as [|c s IH]; simpl; [exact I|].
  destruct (is_js_space c) eqn:Hc; [exact IH|exact Hc].
Qed.

Lemma drop_space_suffix (s : jsstr) : exists p, s = p ++ drop_space s.
Proof.
  induction s as [|c s [p Hp]]; simpl; [exists []; reflexivity|].
  destruct (is_js_space c); [exists (c :: p); simpl; congruence|exists []; reflexivity].
Qed.

Lemma drop_space_id (s : jsstr) : hd_ok s -> drop_space s = s.
Proof. destruct s as [|c s]; simpl; [reflexivity|]. intros ->. reflexivity. Qed.

Lemma trim_id (s : jsstr) : hd_ok s -> hd_ok (rev s) -> trim s = s.
Proof.
  intros H1 H2. unfold trim. rewrite (drop_space_id s H1), (drop_space_id _ H2).
  apply rev_involutive.
Qed.

Lemma trim_edges (s : jsstr) : hd_ok (trim s) /\ hd_ok (rev (trim s)).
Proof.
  unfold trim. rewrite rev_involutive. split; [|apply drop_space_hd].
  pose proof (drop_space_hd s) as Hy. set (y := drop_space s) in *.
  destruct (drop_space_suffix (rev y)) as [p Hp].
  set (z := drop_space (rev y)) in *.
  assert (Hy' : y = rev z ++ rev p) by (rewrite <- rev_app_distr, <- Hp, rev_involutive; reflexivity).
  destruct (rev z) as [|c t]; [exact I|]. rewrite Hy' in Hy. exact Hy.
Qed.

Lemma trim_fixed (s : jsstr) : trim s = s -> hd_ok s /\ hd_ok (rev s).
Proof. intros H. rewrite <- H. apply trim_edges. Qed.

Lemma trim_idem (s : jsstr) : trim (trim s) = trim s.
Proof. destruct (trim_edges s). apply trim_id; assumption. Qed.

Lemma drop_space_incl (s : jsstr) (c : N) : In c (drop_space s) -> In c s.
Proof.
  destruct (drop_space_suffix s) as [p Hp]. intros H. rewrite Hp. apply in_or_app. right. exact H.
Qed.

Lemma trim_incl (s : jsstr) (c : N) : In c (trim s) -> In c s.
Proof.
  unfold trim. intros H. apply in_rev in H. apply drop_space_incl in H.
  apply in_rev in H. apply drop_space_incl in H. exact H.
Qed.

(** No piece of [split(/\r?\n/)] holds a line feed. *)
Lemma split_lines_acc_no_lf (n : nat) (cur s : jsstr) :
  (length s < n)%nat -> ~ In 10 cur -> Forall (fun x => ~ In 10 x) (split_lines_acc cur s).
Proof.
  revert cur s. induction n as [|n IH]; intros cur s Hn Hcur; [lia|].
  destruct s as [|c s]; simpl.
  - constructor; [rewrite <- in_rev; exact Hcur|constructor].
  - simpl in Hn. destruct (c =? 10) eqn:H10.
    + constructor; [rewrite <- in_rev; exact Hcur|apply IH; simpl; [lia|tauto]].
    + apply N.eqb_neq in H10.
      destruct s as [|d s'].
      * apply IH; [simpl; lia|]. simpl. intros [H|H]; [congruence|tauto].
      * destruct ((c =? 13) && (d =? 10)) eqn:Hcr.
        -- constructor; [rewrite <- in_rev; exact Hcur|apply IH; simpl in *; [lia|tauto]].
        -- apply IH; [simpl in *; lia|]. simpl. intros [H|H]; [congruence|tauto].
Qed.

Lemma split_lines_no_lf (s : jsstr) : Forall (fun x => ~ In 10 x) (split_lines s).
Proof. apply (split_lines_acc_no_lf (S (length s))); simpl; [lia|tauto]. Qed.

Lemma split_lines_acc_step (cur r : jsstr) (c : N) :
  c <> 10 -> (c <> 13 \/ head r <> Some 10) ->
  split_lines_acc cur (c :: r) = split_lines_acc (c :: cur) r.
Proof.
  intros Hc Hcr. simpl. apply N.eqb_neq in Hc. rewrite Hc.
  destruct r as [|d r]; [reflexivity|].
  destruct Hcr as [Hcr|Hcr].
  - apply N.eqb_neq in Hcr. rewrite Hcr. reflexivity.
  - assert (Hd : (d =? 10) = false) by (apply N.eqb_neq; intros ->; apply Hcr; reflexivity).
    rewrite Hd, andb_false_r. reflexivity.
Qed.

Lemma hd_ok_not_cr (c : N) : hd_ok [c] -> c <> 13.
Proof. simpl. intros H ->. discriminate H. Qed.

(** A piece without a line feed, not ending in CR, then a line feed. *)
Lemma split_lines_acc_piece (cur x r : jsstr) :
  ~ In 10 x -> hd_ok (rev x) ->
  split_lines_acc cur (x ++ 10 :: r) = (rev cur ++ x) :: split_lines_acc [] r.
Proof.
  revert cur. induction x as [|c x IH]; intros cur Hx Hl.
  - simpl. rewrite app_nil_r. reflexivity.
  - assert (Hc : c <> 10) by (intros ->; apply Hx; left; reflexivity).
    assert (Hx' : ~ In 10 x) by (intros H; apply Hx; right; exact H).
    rewrite <- app_comm_cons, split_lines_acc_step; [|exact Hc|].
    + destruct x as [|d x].
      * simpl. rewrite <- ?app_assoc. reflexivity.
      * rewrite (IH (c :: cur) Hx' (hd_ok_rev_cons c d x Hl)). simpl. rewrite <- ?app_assoc. reflexivity.
    + destruct x as [|d x]; [left; exact (hd_ok_not_cr c Hl)|].
      right. simpl. intros [= ->]. apply Hx'. left. reflexivity.
Qed.

Lemma split_lines_acc_last (cur x : jsstr) :
  ~ In 10 x -> hd_ok (rev x) -> split_lines_acc cur x = [rev cur ++ x].
Proof.
  revert cur. induction x as [|c x IH]; intros cur Hx Hl.
  - simpl. rewrite app_nil_r. reflexivity.
  - assert (Hc : c <> 10) by (intros ->; apply Hx; left; reflexivity).
    assert (Hx' : ~ In 10 x) by (intros H; apply Hx; right; exact H).
    rewrite split_lines_acc_step; [|exact Hc|].
    + destruct x as [|d x].
      * simpl. reflexivity.
      * rewrite (IH (c :: cur) Hx' (hd_ok_rev_cons c d x Hl)). simpl. rewrite <- ?app_assoc. reflexivity.
    + destruct x as [|d x]; [right; discriminate|].
      right. simpl. intros [= ->]. apply Hx'. left. reflexivity.
Qed.

(** [join("\n")] then [split(/\r?\n/)] gives the pieces back. *)
Lemma split_join (l : list jsstr) :
  l <> [] -> Forall (fun x => ~ In 10 x /\ hd_ok (rev x)) l -> split_lines (join_with 10 l) = l.
Proof.
  unfold split_lines. induction l as [|x l IH]; intros Hne Hl; [congruence|].
  inversion Hl as [|? ? [Hx1 Hx2] Hl']; subst.
  destruct l as [|y l].
  - simpl join_with. rewrite (split_lines_acc_last [] x Hx1 Hx2). reflexivity.
  - change (join_with 10 (x :: y :: l)) with (x ++ 10 :: join_with 10 (y :: l)).
    rewrite (split_lines_acc_piece [] x _ Hx1 Hx2). simpl. f_equal. apply IH; [discriminate|exact Hl'].
Qed.


(** Every argument [parseArgs] returns is non-empty, already trimmed and
    free of line feeds, whatever the text typed in the dialog. *)
Theorem parseArgs_good (text : jsstr) : Forall good_arg (parseArgs text).
Proof.
  unfold parseArgs. pose proof (split_lines_no_lf text) as H.
  induction H as [|x l Hx Hl IH]; simpl; [constructor|].
  destruct (length (trim x) =? 0)%nat eqn:Hlen; simpl; [exact IH|].
  constructor; [|exact IH]. split; [|split].
  - intros Hn. rewrite Hn in Hlen. discriminate.
  - apply trim_idem.
  - intros Hin. apply Hx, (trim_incl _ _ Hin).
Qed.

(** Round trip: the dialog shows the saved arguments joined by line feeds;
    parsing that text back gives the same list when every argument is
    non-empty, trimmed and has no line feed. *)
Theorem parseArgs_format (args : list jsstr) :
  Forall good_arg args -> parseArgs (formatArgs args) = args.
Proof.
  intros Hg. unfold parseArgs, formatArgs. destruct args as [|a args]; [reflexivity|].
  rewrite split_join.
  - induction Hg as [|x l [Hne [Ht Hlf]] Hl IH]; [reflexivity|]. simpl. rewrite Ht.
    destruct (length x =? 0)%nat eqn:Hlen; [apply Nat.eqb_eq, length_zero_iff_nil in Hlen; congruence|].
    simpl. f_equal. destruct l as [|y l]; [reflexivity|]. apply IH.
  - discriminate.
  - eapply Forall_impl; [exact Hg|]. intros x [_ [Ht Hlf]]. split; [exact Hlf|].
    exact (proj2 (trim_fixed x Ht)).
Qed.

Lemma index_of_app (k v : jsstr) : ~ In 61 k -> index_of 61 (k ++ 61 :: v) = Some (length k).
Proof.
  induction k as [|c k IH]; intros Hk; simpl; [reflexivity|].
  assert (Hc : (c =? 61) = false) by (apply N.eqb_neq; intros ->; apply Hk; left; reflexivity).
  rewrite Hc, IH; [reflexivity|]. intros H; apply Hk; right; exact H.
Qed.

Lemma index_of_none_before (c : N) (s : jsstr) (i : nat) :
  index_of c s = Some i -> ~ In c (firstn i s).
Proof.
  revert i. induction s as [|x s IH]; intros i H; simpl in H; [discriminate|].
  destruct (x =? c) eqn:Hx; [injection H as <-; simpl; tauto|].
  destruct (index_of c s) as [j|] eqn:Hj; simpl in H; [|discriminate].
  injection H as <-. simpl. intros [->|Hin]; [rewrite N.eqb_refl in Hx; discriminate|].
  exact (IH j eq_refl Hin).
Qed.

Lemma firstn_incl (n : nat) (s : jsstr) (c : N) : In c (firstn n s) -> In c s.
Proof. intros H. rewrite <- (firstn_skipn n s). apply in_or_app. left. exact H. Qed.

Lemma skipn_incl (n : nat) (s : jsstr) (c : N) : In c (skipn n s) -> In c s.
Proof. intros H. rewrite <- (firstn_skipn n s). apply in_or_app. right. exact H. Qed.

Lemma js_set_new (k v : jsstr) (e : env) :
  k <> s2u "__proto__" -> ~ In k (map fst e) -> is_array_index k = false ->
  js_set k v e = e ++ [(k, v)].
Proof.
  intros Hp Hin Ha. unfold js_set.
  rewrite bool_decide_eq_false_2 by exact Hp.
  rewrite bool_decide_eq_false_2 by (rewrite list_elem_of_In; exact Hin).
  rewrite Ha. reflexivity.
Qed.

Lemma entry_line_good (kv : jsstr * jsstr) :
  good_entry kv ->
  ~ In 10 (kv.1 ++ 61 :: kv.2) /\ hd_ok (rev (kv.1 ++ 61 :: kv.2)) /\
  trim (kv.1 ++ 61 :: kv.2) = kv.1 ++ 61 :: kv.2 /\ length (kv.1 ++ 61 :: kv.2) <> 0%nat.
Proof.
  destruct kv as [k v]; unfold good_entry; simpl. intros (Hk & Htk & H61 & Hlk & _ & _ & Htv & Hlv).
  assert (Hr : hd_ok (rev (k ++ 61 :: v))).
  { rewrite rev_app_distr. simpl. destruct (trim_fixed _ Htv) as [_ Hv].
    destruct (rev v) as [|d t]; [reflexivity|rewrite <- app_assoc; exact Hv]. }
  split; [|split; [exact Hr|split]].
  - intros Hin. apply in_app_or in Hin as [Hin|[Hin|Hin]]; [tauto|discriminate|tauto].
  - apply trim_id; [|exact Hr]. destruct k as [|c k]; [congruence|].
    exact (proj1 (trim_fixed _ Htk)).
  - rewrite length_app. simpl. lia.
Qed.

Lemma firstn_len_app (k x : jsstr) : firstn (length k) (k ++ x) = k.
Proof. induction k as [|c k IH]; simpl; [reflexivity|]. rewrite IH. reflexivity. Qed.

Lemma skipn_len_app (k x : jsstr) : skipn (length k) (k ++ x) = x.
Proof. induction k as [|c k IH]; simpl; [reflexivity|]. exact IH. Qed.

Lemma parse_env_lines_format (acc e : env) :
  Forall good_entry e -> NoDup (map fst (acc ++ e)) ->
  parse_env_lines acc (map (fun kv => kv.1 ++ 61 :: kv.2) e) = (acc ++ e, None).
Proof.
  revert acc. induction e as [|[k v] e IH]; intros acc Hg Hnd; simpl; [rewrite app_nil_r; reflexivity|].
  inversion Hg as [|? ? Hkv Hg']; subst.
  pose proof Hkv as (Hk & Htk & H61 & _ & Ha & Hp & Htv & _). simpl in *.
  rewrite (index_of_app k v H61).
  assert (Hs : skipn (S (length k)) (k ++ 61 :: v) = v).
  { clear. induction k as [|c k IHk]; [reflexivity|exact IHk]. }
  rewrite firstn_len_app, Hs, Htk, Htv.
  destruct (length k =? 0)%nat eqn:Hl; [apply Nat.eqb_eq, length_zero_iff_nil in Hl; congruence|].
  rewrite map_app in Hnd. simpl in Hnd.
  rewrite js_set_new; [|exact Hp| |exact Ha].
  - rewrite IH; [rewrite <- app_assoc; reflexivity|exact Hg'|].
    rewrite <- app_assoc. rewrite map_app. exact Hnd.
  - intros Hin. apply NoDup_app in Hnd as (_ & Hd & _).
    apply (Hd k); [apply list_elem_of_In; exact Hin|left].
Qed.

Lemma trim_filter_id (l : list jsstr) :
  Forall (fun x => trim x = x /\ length x <> 0%nat) l ->
  List.filter (fun line => negb (length line =? 0)%nat) (map trim l) = l.
Proof.
  induction 1 as [|x l [Ht Hlen] Hl IHl]; [reflexivity|].
  simpl. rewrite Ht. apply Nat.eqb_neq in Hlen. rewrite Hlen. simpl. f_equal. exact IHl.
Qed.

(** Round trip: parsing the text [formatEnv] shows gives back the same
    variables, in order and with no error, when the keys are distinct and
    each key is non-empty, trimmed, without [=] or line feed, not an array
    index and not [__proto__], and each value is trimmed without line feed. *)
Theorem parseEnv_formatEnv (e : env) :
  NoDup (map fst e) -> Forall good_entry e -> parseEnv (formatEnv e) = (e, None).
Proof.
  intros Hnd Hg. unfold parseEnv, formatEnv. destruct e as [|kv e]; [reflexivity|].
  rewrite split_join.
  - rewrite trim_filter_id; [apply (parse_env_lines_format [] (kv :: e)); [exact Hg|exact Hnd]|].
    rewrite Forall_map. eapply Forall_impl; [exact Hg|].
    intros x Hx. destruct (entry_line_good x Hx) as (_ & _ & H1 & H2). split; assumption.
  - discriminate.
  - rewrite Forall_map. eapply Forall_impl; [exact Hg|].
    intros x Hx. destruct (entry_line_good x Hx) as (H1 & H2 & _). split; assumption.
Qed.

Lemma insert_index_perm (k v : jsstr) (e : env) : Permutation (insert_index k v e) ((k, v) :: e).
Proof.
  induction e as [|[k' v'] e IH]; simpl; [reflexivity|].
  destruct (is_array_index k' && (digits_value k' <? digits_value k)); [|reflexivity].
  rewrite IH. apply perm_swap.
Qed.

Lemma js_set_inv (k v : jsstr) (e : env) :
  NoDup (map fst e) -> Forall parsed_entry e -> (k <> s2u "__proto__" -> parsed_entry (k, v)) ->
  NoDup (map fst (js_set k v e)) /\ Forall parsed_entry (js_set k v e).
Proof.
  intros Hnd Hf Hkv. unfold js_set.
  destruct (bool_decide (k = s2u "__proto__")) eqn:Hp; [split; assumption|].
  apply bool_decide_eq_false in Hp. specialize (Hkv Hp).
  destruct (bool_decide (k ∈ map fst e)) eqn:Hin.
  - split.
    + rewrite map_map. erewrite map_ext; [exact Hnd|].
      intros kv. simpl. destruct (bool_decide (kv.1 = k)) eqn:He; [|reflexivity].
      apply bool_decide_eq_true in He. simpl. congruence.
    + rewrite Forall_map. eapply Forall_impl; [exact Hf|]. intros kv Hkv'.
      destruct (bool_decide (kv.1 = k)); assumption.
  - apply bool_decide_eq_false in Hin.
    assert (Hnd' : NoDup (k :: map fst e)) by (constructor; assumption).
    destruct (is_array_index k).
    + pose proof (insert_index_perm k v e) as Hperm. split.
      * rewrite (Permutation_map fst Hperm). exact Hnd'.
      * rewrite List.Forall_forall. intros x Hx. eapply Permutation_in in Hx; [|exact Hperm].
        destruct Hx as [<-|Hx]; [exact Hkv|]. rewrite List.Forall_forall in Hf. apply Hf, Hx.
    + split.
      * rewrite map_app. simpl. apply NoDup_app. split; [exact Hnd|split; [|apply NoDup_singleton]].
        intros x Hx Hx'. apply list_elem_of_singleton in Hx'. subst. contradiction.
      * apply Forall_app. split; [exact Hf|constructor; [exact Hkv|constructor]].
Qed.

Lemma parse_env_lines_inv (acc : env) (lines : list jsstr) :
  Forall (fun x => ~ In 10 x) lines -> NoDup (map fst acc) -> Forall parsed_entry acc ->
  ((parse_env_lines acc lines).2 <> None -> (parse_env_lines acc lines).1 = []) /\
  ((parse_env_lines acc lines).2 = None ->
     NoDup (map fst (parse_env_lines acc lines).1) /\ Forall parsed_entry (parse_env_lines acc lines).1).
Proof.
  revert acc. induction lines as [|line rest IH]; intros acc Hl Hnd Hf; simpl.
  - split; [congruence|]. intros _. split; assumption.
  - inversion Hl as [|? ? Hline Hrest]; subst.
    destruct (index_of 61 line) as [sep|] eqn:Hsep; simpl; [|split; [reflexivity|discriminate]].
    destruct (length (trim (firstn sep line)) =? 0)%nat eqn:Hlen; simpl; [split; [reflexivity|discriminate]|].
    destruct (js_set_inv (trim (firstn sep line)) (trim (skipn (S sep) line)) acc Hnd Hf) as [Hnd' Hf'].
    + intros Hp. unfold parsed_entry. simpl. split; [|split; [|split; [|split; [|split; [|split]]]]].
      * intros He. rewrite He in Hlen. discriminate.
      * apply trim_idem.
      * intros H. apply trim_incl in H. exact (index_of_none_before 61 line sep Hsep H).
      * intros H. apply trim_incl, firstn_incl in H. exact (Hline H).
      * exact Hp.
      * apply trim_idem.
      * intros H. apply trim_incl, skipn_incl in H. exact (Hline H).
    + exact (IH _ Hrest Hnd' Hf').
Qed.

Lemma Forall_filter_bool {A} (P : A -> Prop) (f : A -> bool) (l : list A) :
  Forall P l -> Forall P (List.filter f l).
Proof. induction 1; simpl; [constructor|]. destruct (f x); [constructor|]; assumption. Qed.

(** [parseEnv] either reports an error together with no variables, or
    returns variables with distinct keys, each key non-empty, trimmed,
    without [=] or line feed and not [__proto__], each value trimmed and
    without line feed. *)
Theorem parseEnv_result (text : jsstr) :
  ((parseEnv text).2 <> None -> (parseEnv text).1 = []) /\
  ((parseEnv text).2 = None -> NoDup (map fst (parseEnv text).1) /\ Forall parsed_entry (parseEnv text).1).
Proof.
  unfold parseEnv. apply parse_env_lines_inv; [|constructor|constructor].
  apply Forall_filter_bool. rewrite Forall_map. eapply Forall_impl; [apply split_lines_no_lf|].
  intros x Hx H. apply Hx, (trim_incl _ _ H).
Qed.

Lemma parseArgs_format_witness :
  parseArgs (formatArgs [s2u "run"; s2u "dev"; s2u "--port 3000"]) = [s2u "run"; s2u "dev"; s2u "--port 3000"].
Proof.
  apply parseArgs_format.
  repeat (apply List.Forall_cons; [split; [discriminate|split; [vm_compute; reflexivity|vm_compute; intuition discriminate]]|]).
  apply List.Forall_nil.
Defined.

Lemma parseEnv_formatEnv_witness :
  parseEnv (formatEnv [(s2u "PORT", s2u "3000"); (s2u "NODE_ENV", s2u "development")]) =
    ([(s2u "PORT", s2u "3000"); (s2u "NODE_ENV", s2u "development")], None).
Proof.
  apply parseEnv_formatEnv.
  - apply (bool_decide_unpack _). vm_compute. reflexivity.
  - repeat (apply List.Forall_cons; [unfold good_entry; cbn [fst snd];
      repeat split; first [discriminate | vm_compute; reflexivity | vm_compute; intuition discriminate]|]).
    apply List.Forall_nil.
Defined.

End DialogFacts.

Module TableFacts.
Import ProgFacts DbFacts.

Lemma status_of_text_status_text (s : RunLifecycleStatus) : status_of_text (status_text s) = Some s.
Proof. destruct s; vm_compute; reflexivity. Qed.

Lemma fromRunStatusRow_toStatusRow (s : RunStatus) :
  NoDup (map fst (rs_lastEnv s)) -> fromRunStatusRow (toStatusRow s) = Some s.
Proof.
  intros Hnd. unfold fromRunStatusRow, toStatusRow, parse_args, parse_env, args_text, env_text.
  cbn [srow_status srow_last_args srow_last_env srow_project_id].
  rewrite status_of_text_status_text.
  assert (Ht : forall l : list jsstr, truthy_str (Some (Json.stringify_array l)) = true) by reflexivity.
  assert (Hr : truthy_str (Some (Json.stringify_record (rs_lastEnv s))) = true)
    by (unfold Json.stringify_record; destruct (rs_lastEnv s); reflexivity).
  rewrite Ht, Hr, JsonFacts.parse_stringify_array, (JsonFacts.parse_stringify_record _ Hnd).
  rewrite JsonFacts.string_array_schema_strings, JsonFacts.string_record_schema_members.
  destruct s; reflexivity.
Qed.

Lemma upsert_status_first (r : RunStatusRow) (rows : list RunStatusRow) :
  exists rest, List.filter (fun x => bool_decide (srow_project_id x = srow_project_id r)) (upsert_status r rows) = r :: rest.
Proof.
  induction rows as [|r' rows IH]; simpl.
  - rewrite bool_decide_eq_true_2 by reflexivity. eexists; reflexivity.
  - destruct (decide (srow_project_id r' = srow_project_id r)) as [E|E]; simpl.
    + rewrite bool_decide_eq_true_2 by reflexivity. eexists; reflexivity.
    + rewrite bool_decide_eq_false_2 by exact E. exact IH.
Qed.

Lemma upsert_status_other (r : RunStatusRow) (rows : list RunStatusRow) (pid : jsstr) :
  pid <> srow_project_id r ->
  List.filter (fun x => bool_decide (srow_project_id x = pid)) (upsert_status r rows) =
  List.filter (fun x => bool_decide (srow_project_id x = pid)) rows.
Proof.
  intros Hp. induction rows as [|r' rows IH]; simpl.
  - rewrite bool_decide_eq_false_2 by congruence. reflexivity.
  - destruct (decide (srow_project_id r' = srow_project_id r)) as [E|E]; simpl.
    + rewrite (bool_decide_eq_false_2 (srow_project_id r = pid)) by congruence.
      rewrite (bool_decide_eq_false_2 (srow_project_id r' = pid)) by congruence. reflexivity.
    + rewrite IH. reflexivity.
Qed.

Lemma run_saveRunStatus (w : World) (s : RunStatus) :
  run w (saveRunStatus s) =
  (upd_log (fun l => l ++ [EvPersist (rs_projectId s) (rs_status s)])
     (upd_db_status (upsert_status (toStatusRow s)) w), Ok tt).
Proof. reflexivity. Qed.

Lemma run_getRunStatus (w : World) (pid : jsstr) :
  run w (getRunStatus pid) =
  (w, match List.filter (fun r => bool_decide (srow_project_id r = pid)) (w_db_status w) with
      | [] => Ok None
      | row :: _ => match fromRunStatusRow row with Some s => Ok (Some s) | None => Err ESchema end
      end).
Proof.
  unfold getRunStatus. simpl.
  destruct (List.filter _ _) as [|row rest]; [reflexivity|].
  destruct (fromRunStatusRow row); reflexivity.
Qed.

(** [saveRunStatus(s)] then [getRunStatus(s.projectId)] gives [s] back. *)
Theorem save_then_get_status (w : World) (s : RunStatus) :
  NoDup (map fst (rs_lastEnv s)) ->
  (run (run w (saveRunStatus s)).1 (getRunStatus (rs_projectId s))).2 = Ok (Some s).
Proof.
  intros Hnd. rewrite run_saveRunStatus, run_getRunStatus. cbn [fst snd w_db_status upd_log upd_db_status].
  destruct (upsert_status_first (toStatusRow s) (w_db_status w)) as [rest Hf].
  change (srow_project_id (toStatusRow s)) with (rs_projectId s) in Hf.
  rewrite Hf, (fromRunStatusRow_toStatusRow _ Hnd). reflexivity.
Qed.

Lemma save_then_get_status_witness :
  let s := mkRunStatus (s2u "p1") Failed (Some (s2u "r1")) (Some (s2u "npm")) [s2u "test"]
             [(s2u "CI", s2u "1")] (Some (s2u "/w/demo")) (Some 1%Z) (Some 5%Z) (Some 9%Z) 9%Z in
  (run (run (demo_world true true false) (saveRunStatus s)).1 (getRunStatus (rs_projectId s))).2 = Ok (Some s).
Proof.
  intros s. apply save_then_get_status. subst s. vm_compute. constructor; [set_solver|constructor].
Defined.

(** Saving the status of one project leaves what [getRunStatus] reads for
    every other project as it was. *)
Theorem save_status_keeps_others (w : World) (s : RunStatus) (pid : jsstr) :
  pid <> rs_projectId s ->
  (run (run w (saveRunStatus s)).1 (getRunStatus pid)).2 = (run w (getRunStatus pid)).2.
Proof.
  intros Hp. rewrite run_saveRunStatus, !run_getRunStatus. cbn [fst snd w_db_status upd_log upd_db_status].
  rewrite upsert_status_other by exact Hp. reflexivity.
Qed.

Lemma save_status_keeps_others_witness :
  let row := mkRunStatusRow (s2u "p2") (s2u "running") None None None None None None None None 1%Z in
  let w := upd_db_status (fun _ => [row]) (demo_world true true false) in
  let s := mkRunStatus (s2u "p1") Idle None None [] [] None None None None 2%Z in
  (run (run w (saveRunStatus s)).1 (getRunStatus (s2u "p2"))).2 =
    Ok (Some (mkRunStatus (s2u "p2") Running None None [] [] None None None None 1%Z)).
Proof.
  intros row w s. rewrite (save_status_keeps_others w s (s2u "p2")); [|subst s; vm_compute; discriminate].
  subst row w. vm_compute. reflexivity.
Defined.

Lemma map_opt_none {A B} (f : A -> option B) (l : list A) (x : A) :
  In x l -> f x = None -> map_opt f l = None.
Proof.
  induction l as [|y l IH]; intros Hin Hx; [destruct Hin|]. simpl.
  destruct Hin as [->|Hin]; [rewrite Hx; reflexivity|].
  rewrite (IH Hin Hx). destruct (f y); reflexivity.
Qed.

Lemma map_opt_In_inv {A B} (f : A -> option B) (l : list A) (l' : list B) (y : B) :
  map_opt f l = Some l' -> In y l' -> exists x, In x l /\ f x = Some y.
Proof.
  revert l'. induction l as [|x l IH]; intros l' Hm Hy; simpl in Hm.
  - injection Hm as <-. destruct Hy.
  - destruct (f x) as [z|] eqn:Hf, (map_opt f l) as [zs|] eqn:Hr; try discriminate.
    injection Hm as <-. destruct Hy as [<-|Hy'].
    + exists x. split; [left; reflexivity|exact Hf].
    + destruct (IH zs eq_refl Hy') as [x' [Hx' Hf']]. exists x'. split; [right; exact Hx'|exact Hf'].
Qed.

Lemma fromRunRow_fields (r : RunRow) (c : RunConfig) :
  fromRunRow r = Some c ->
  rc_id c = row_id r /\ rc_projectId c = row_project_id r /\ rc_lastExitCode c = row_last_exit_code r /\
  rc_updatedAt c = row_updated_at r.
Proof.
  unfold fromRunRow. destruct (parse_args (row_args r)), (parse_env (row_env r)); intros H; try discriminate.
  injection H as <-. auto.
Qed.

Lemma set_outcome_readable (id : jsstr) (code : option Z) (at_ : Z) (r : RunRow) :
  fromRunRow r <> None -> fromRunRow (set_outcome id code at_ r) <> None.
Proof.
  unfold set_outcome. destruct (decide (row_id r = id)); [|auto].
  unfold fromRunRow. cbn [row_args row_env]. destruct (parse_args (row_args r)), (parse_env (row_env r)); congruence.
Qed.

Lemma run_updateRunOutcome (w : World) (id : jsstr) (code : option Z) (at_ : Z) :
  run w (updateRunOutcome id code at_) = (upd_db_runs (map (set_outcome id code at_)) w, Ok tt).
Proof. reflexivity. Qed.

Lemma run_deleteRunConfig (w : World) (id : jsstr) :
  run w (deleteRunConfig id) =
  (upd_db_runs (List.filter (fun r => negb (bool_decide (row_id r = id)))) w, Ok tt).
Proof. reflexivity. Qed.

(** After [updateRunOutcome(id, code, at)], [listRuns] of the run's project
    lists that run first, with the new exit code and time, when every other
    run of the project was updated before [at]. *)
Theorem outcome_run_listed_first (w : World) (id pid : jsstr) (code : option Z) (at_ : Z) (r : RunRow) :
  In r (w_db_runs w) -> row_id r = id -> row_project_id r = pid ->
  Forall (fun x => fromRunRow x <> None) (w_db_runs w) ->
  (forall x, In x (w_db_runs w) -> row_project_id x = pid -> row_id x <> id -> (row_updated_at x < at_)%Z) ->
  exists c l, (run (run w (updateRunOutcome id code at_)).1 (listRuns pid)).2 = Ok (c :: l) /\
    rc_id c = id /\ rc_lastExitCode c = code /\ rc_updatedAt c = at_.
Proof.
  intros Hr Hid Hpid Hread Hold.
  rewrite run_updateRunOutcome, run_listRuns. cbn [fst snd w_db_runs upd_db_runs].
  set (rows' := map (set_outcome id code at_) (w_db_runs w)).
  assert (Hr' : In (set_outcome id code at_ r) rows') by (apply in_map, Hr).
  assert (Hsr : set_outcome id code at_ r =
                mkRunRow (row_id r) (row_project_id r) (row_command r) (row_args r) (row_env r) (row_cwd r) code at_)
    by (unfold set_outcome; destruct (decide (row_id r = id)); congruence).
  assert (Hsel : In (set_outcome id code at_ r) (select_runs pid rows'))
    by (apply select_runs_In; [exact Hr'|rewrite Hsr; exact Hpid]).
  destruct (select_runs pid rows') as [|h rest] eqn:Hs; [destruct Hsel|].
  destruct (select_runs_head_max _ _ _ _ Hs) as [Hh [Hhp Hmax]].
  assert (Hat : (at_ <= row_updated_at h)%Z)
    by (pose proof (Hmax _ Hr' ltac:(rewrite Hsr; exact Hpid)) as Hm; rewrite Hsr in Hm; simpl in Hm; exact Hm).
  apply in_map_iff in Hh as [y [Hy Hyin]].
  assert (Hyid : row_id y = id).
  { destruct (decide (row_id y = id)) as [E|E]; [exact E|].
    exfalso. unfold set_outcome in Hy. destruct (decide (row_id y = id)); [contradiction|]. subst h.
    pose proof (Hold y Hyin Hhp E). lia. }
  assert (Hhf : row_id h = id /\ row_last_exit_code h = code /\ row_updated_at h = at_).
  { unfold set_outcome in Hy. destruct (decide (row_id y = id)); [|contradiction]. subst h. auto. }
  assert (Hrd : Forall (fun x => fromRunRow x <> None) (h :: rest)).
  { rewrite <- Hs. apply List.Forall_forall. intros x Hx. apply select_runs_incl in Hx.
    apply in_map_iff in Hx as [z [<- Hz]]. apply set_outcome_readable.
    rewrite List.Forall_forall in Hread. apply Hread, Hz. }
  pose proof (Forall_inv Hrd) as Hh1. pose proof (Forall_inv_tail Hrd) as Hh2.
  destruct (fromRunRow h) as [c|] eqn:Hc; [|congruence].
  destruct (map_opt_all _ _ Hh2) as [l [Hl _]].
  exists c, l. simpl. rewrite Hc, Hl. split; [reflexivity|].
  destruct (fromRunRow_fields _ _ Hc) as (H1 & _ & H3 & H4). destruct Hhf as (E1 & E2 & E3).
  split; [congruence|split; congruence].
Qed.

(** After [deleteRunConfig(id)], [listRuns] lists no configuration with that
    id and still lists every other configuration of the project. *)
Theorem delete_run_unlisted (w : World) (id pid : jsstr) :
  Forall (fun x => fromRunRow x <> None) (w_db_runs w) ->
  exists l, (run (run w (deleteRunConfig id)).1 (listRuns pid)).2 = Ok l /\
    (forall c, In c l -> rc_id c <> id) /\
    (forall r c, In r (w_db_runs w) -> row_project_id r = pid -> row_id r <> id -> fromRunRow r = Some c -> In c l).
Proof.
  intros Hread. rewrite run_deleteRunConfig, run_listRuns. cbn [fst snd w_db_runs upd_db_runs].
  set (rows' := List.filter (fun r => negb (bool_decide (row_id r = id))) (w_db_runs w)).
  assert (Hrd : Forall (fun x => fromRunRow x <> None) (select_runs pid rows')).
  { apply List.Forall_forall. intros x Hx. apply select_runs_incl in Hx.
    apply filter_In in Hx as [Hx _]. rewrite List.Forall_forall in Hread. apply Hread, Hx. }
  destruct (map_opt_all _ _ Hrd) as [l [Hl Hin]]. rewrite Hl. exists l. split; [reflexivity|]. split.
  - intros c Hc. destruct (map_opt_In_inv _ _ _ _ Hl Hc) as [x [Hx Hf]].
    apply select_runs_incl, filter_In in Hx as [_ Hx].
    destruct (fromRunRow_fields _ _ Hf) as [-> _]. intros E. rewrite E in Hx.
    rewrite bool_decide_eq_true_2 in Hx by reflexivity. discriminate.
  - intros r c Hr Hp Hid Hf. apply (Hin r); [|exact Hf]. apply select_runs_In; [|exact Hp].
    apply filter_In. split; [exact Hr|]. rewrite bool_decide_eq_false_2 by exact Hid. reflexivity.
Qed.

(** Two stored runs of [demo_project]; [r1] was used last. *)
Lemma outcome_run_listed_first_witness :
  let r1 := mkRunRow (s2u "r1") (s2u "p1") (s2u "npm") None None None None 1%Z in
  let r2 := mkRunRow (s2u "r2") (s2u "p1") (s2u "make") None (Some (s2u "{}")) None None 5%Z in
  let w := upd_db_runs (fun _ => [r1; r2]) (demo_world true true false) in
  exists c l, (run (run w (updateRunOutcome (s2u "r1") (Some 0%Z) 10%Z)).1 (listRuns (s2u "p1"))).2 = Ok (c :: l) /\
    rc_id c = s2u "r1" /\ rc_lastExitCode c = Some 0%Z /\ rc_updatedAt c = 10%Z.
Proof.
  intros r1 r2 w. apply (outcome_run_listed_first w (s2u "r1") (s2u "p1") (Some 0%Z) 10%Z r1).
  - subst w. left. reflexivity.
  - reflexivity.
  - reflexivity.
  - subst w r1 r2. constructor; [vm_compute; discriminate|constructor; [vm_compute; discriminate|constructor]].
  - intros x Hx Hp Hi. subst w. destruct Hx as [<-|[<-|[]]]; [subst r1; contradiction|subst r2; vm_compute; reflexivity].
Defined.

Lemma delete_run_unlisted_witness :
  let r1 := mkRunRow (s2u "r1") (s2u "p1") (s2u "npm") None None None None 1%Z in
  let r2 := mkRunRow (s2u "r2") (s2u "p1") (s2u "make") None None None None 5%Z in
  let w := upd_db_runs (fun _ => [r1; r2]) (demo_world true true false) in
  exists l, (run (run w (deleteRunConfig (s2u "r2"))).1 (listRuns (s2u "p1"))).2 = Ok l /\
    (forall c, In c l -> rc_id c <> s2u "r2") /\
    (forall r c, In r (w_db_runs w) -> row_project_id r = s2u "p1" -> row_id r <> s2u "r2" ->
       fromRunRow r = Some c -> In c l).
Proof.
  intros r1 r2 w. apply delete_run_unlisted.
  subst w r1 r2. constructor; [vm_compute; discriminate|constructor; [vm_compute; discriminate|constructor]].
Defined.

Lemma upsert_project_get (p : ProjectRecord) (rows : list ProjectRecord) :
  getProject (pr_id p) (upsert_project p rows) =
  Some (mkProjectRecord (pr_id p) (pr_name p) (pr_path p) (pr_detectedLang p)
          (match getProject (pr_id p) rows with Some r => pr_createdAt r | None => pr_createdAt p end)
          (pr_updatedAt p)).
Proof.
  unfold getProject. induction rows as [|r rows IH]; simpl.
  - rewrite bool_decide_eq_true_2 by reflexivity. destruct p; reflexivity.
  - destruct (decide (pr_id r = pr_id p)) as [E|E]; simpl.
    + rewrite !bool_decide_eq_true_2 by exact E. simpl. rewrite E. reflexivity.
    + rewrite bool_decide_eq_false_2 by exact E. exact IH.
Qed.

Lemma upsert_project_other (p : ProjectRecord) (rows : list ProjectRecord) (id : jsstr) :
  id <> pr_id p -> getProject id (upsert_project p rows) = getProject id rows.
Proof.
  intros Hid. unfold getProject. induction rows as [|r rows IH]; simpl.
  - rewrite bool_decide_eq_false_2 by congruence. reflexivity.
  - destruct (decide (pr_id r = pr_id p)) as [E|E]; simpl.
    + rewrite !bool_decide_eq_false_2 by congruence. reflexivity.
    + destruct (bool_decide (pr_id r = id)); [reflexivity|exact IH].
Qed.

(** [upsertProject(p)] then [getProject(p.id)] gives the record written,
    except [createdAt], which an existing row keeps; [getProject] of every
    other id is unchanged. *)
Theorem upsert_then_getProject (p : ProjectRecord) (rows rows' : list ProjectRecord) :
  upsertProject p rows = Some rows' ->
  getProject (pr_id p) rows' =
    Some (mkProjectRecord (pr_id p) (pr_name p) (pr_path p) (pr_detectedLang p)
            (match getProject (pr_id p) rows with Some r => pr_createdAt r | None => pr_createdAt p end)
            (pr_updatedAt p)) /\
  (forall id, id <> pr_id p -> getProject id rows' = getProject id rows).
Proof.
  unfold upsertProject. destruct (existsb _ rows); [discriminate|]. intros [= <-].
  split; [apply upsert_project_get|intros id; apply upsert_project_other].
Qed.

Lemma upsert_then_getProject_witness :
  let old := mkProjectRecord (s2u "p1") (s2u "Demo") (s2u "/w/demo") None 1%Z 1%Z in
  let p := mkProjectRecord (s2u "p1") (s2u "Demo2") (s2u "/w/demo2") (Some (s2u "ts")) 7%Z 7%Z in
  exists rows', upsertProject p [old] = Some rows' /\
    getProject (s2u "p1") rows' =
      Some (mkProjectRecord (s2u "p1") (s2u "Demo2") (s2u "/w/demo2") (Some (s2u "ts")) 1%Z 7%Z).
Proof.
  intros old p. exists (upsert_project p [old]).
  assert (H : upsertProject p [old] = Some (upsert_project p [old])) by (subst p old; vm_compute; reflexivity).
  split; [exact H|]. exact (proj1 (upsert_then_getProject p [old] _ H)).
Defined.

Lemma upsert_project_In (p : ProjectRecord) (rows : list ProjectRecord) (x : ProjectRecord) :
  In x (upsert_project p rows) -> In x rows \/ (pr_id x = pr_id p /\ pr_path x = pr_path p).
Proof.
  induction rows as [|r rows IH]; simpl.
  - intros [<-|[]]. right. auto.
  - destruct (decide (pr_id r = pr_id p)) as [E|E]; simpl.
    + intros [<-|H]; [right; simpl; auto|left; right; exact H].
    + intros [<-|H]; [left; left; reflexivity|]. destruct (IH H) as [H'|H']; [left; right; exact H'|right; exact H'].
Qed.

(** [upsertProject] keeps both constraints of the [projects] table: when it
    succeeds, ids and paths are still pairwise distinct. *)
Theorem upsertProject_keeps_constraints (p : ProjectRecord) (rows rows' : list ProjectRecord) :
  NoDup (map pr_id rows) -> NoDup (map pr_path rows) ->
  upsertProject p rows = Some rows' ->
  NoDup (map pr_id rows') /\ NoDup (map pr_path rows').
Proof.
  unfold upsertProject. destruct (existsb _ rows) eqn:Hex; [discriminate|]. intros Hid Hpath [= <-].
  assert (Hother : forall r, In r rows -> pr_id r <> pr_id p -> pr_path r <> pr_path p).
  { intros r Hr Hne Hp. assert (Ht : existsb (fun r => negb (bool_decide (pr_id r = pr_id p)) && bool_decide (pr_path r = pr_path p)) rows = true).
    { apply existsb_exists. exists r. split; [exact Hr|].
      rewrite bool_decide_eq_false_2 by exact Hne. rewrite bool_decide_eq_true_2 by exact Hp. reflexivity. }
    congruence. }
  clear Hex. induction rows as [|r rows IH]; simpl.
  - split; repeat constructor; set_solver.
  - apply NoDup_cons in Hid as [Hid1 Hid2]. apply NoDup_cons in Hpath as [Hp1 Hp2].
    destruct (decide (pr_id r = pr_id p)) as [E|E]; simpl.
    + split; apply NoDup_cons; split; try assumption.
      intros Hin. apply list_elem_of_In, in_map_iff in Hin as [r2 [Hr2 Hin2]].
      apply (Hother r2); [right; exact Hin2| |exact Hr2].
      intros E2. apply Hid1. apply list_elem_of_In, in_map_iff. exists r2. split; [congruence|exact Hin2].
    + destruct (IH Hid2 Hp2 ltac:(intros r2 Hr2; apply Hother; right; exact Hr2)) as [N1 N2].
      split; apply NoDup_cons; split; try assumption.
      * intros Hin. apply list_elem_of_In, in_map_iff in Hin as [x [Hx Hin]].
        destruct (upsert_project_In p rows x Hin) as [Hin'|[Hx1 _]]; [|congruence].
        apply Hid1, list_elem_of_In, in_map_iff. exists x. auto.
      * intros Hin. apply list_elem_of_In, in_map_iff in Hin as [x [Hx Hin]].
        destruct (upsert_project_In p rows x Hin) as [Hin'|[_ Hx2]].
        -- apply Hp1, list_elem_of_In, in_map_iff. exists x. auto.
        -- apply (Hother r); [left; reflexivity|exact E|congruence].
Qed.

Lemma upsertProject_keeps_constraints_witness :
  let a := mkProjectRecord (s2u "p1") (s2u "A") (s2u "/w/a") None 1%Z 1%Z in
  let b := mkProjectRecord (s2u "p2") (s2u "B") (s2u "/w/b") None 1%Z 1%Z in
  let p := mkProjectRecord (s2u "p1") (s2u "A") (s2u "/w/c") None 2%Z 2%Z in
  NoDup (map pr_id (upsert_project p [a; b])) /\ NoDup (map pr_path (upsert_project p [a; b])).
Proof.
  intros a b p. apply (upsertProject_keeps_constraints p [a; b]).
  - subst a b. vm_compute. constructor; [set_solver|constructor; [set_solver|constructor]].
  - subst a b. vm_compute. constructor; [set_solver|constructor; [set_solver|constructor]].
  - subst a b p. vm_compute. reflexivity.
Defined.

End TableFacts.

Module ServiceMoreFacts.
Import ProgFacts DbFacts.

Lemma idle_steps_lookup (now : Z) (projects : list Project) (m : gmap jsstr RunState) (k : jsstr) :
  fold_left (idle_step now) projects m !! k =
  match m !! k with
  | Some v => Some v
  | None => if bool_decide (k ∈ map project_id projects) then Some (createIdleState k now) else None
  end.
Proof.
  revert m. induction projects as [|p ps IH]; intros m; simpl.
  - destruct (m !! k); reflexivity.
  - rewrite IH. unfold idle_step.
    destruct (m !! project_id p) as [v|] eqn:Hp.
    + destruct (m !! k) as [u|] eqn:Hk; [reflexivity|].
      assert (k <> project_id p) by congruence.
      destruct (bool_decide (k ∈ map project_id ps)) eqn:H1;
      destruct (bool_decide (k ∈ project_id p :: map project_id ps)) eqn:H2; try reflexivity;
      apply bool_decide_eq_true in H1 || apply bool_decide_eq_true in H2;
      apply bool_decide_eq_false in H1 || apply bool_decide_eq_false in H2; set_solver.
    + destruct (decide (k = project_id p)) as [->|Hne].
      * rewrite lookup_insert_eq, Hp. rewrite (bool_decide_eq_true_2 (_ ∈ _ :: _)) by set_solver. reflexivity.
      * rewrite lookup_insert_ne by congruence. destruct (m !! k) as [u|]; [reflexivity|].
        destruct (bool_decide (k ∈ map project_id ps)) eqn:H1;
        destruct (bool_decide (k ∈ project_id p :: map project_id ps)) eqn:H2; try reflexivity;
        apply bool_decide_eq_true in H1 || apply bool_decide_eq_true in H2;
        apply bool_decide_eq_false in H1 || apply bool_decide_eq_false in H2; set_solver.
Qed.

Lemma sync_map_lookup (projects : list Project) (now : Z) (m : gmap jsstr RunState) (k : jsstr) :
  sync_map projects now m !! k =
  if bool_decide (k ∈ map project_id projects)
  then match m !! k with Some v => Some v | None => Some (createIdleState k now) end
  else None.
Proof.
  unfold sync_map. rewrite map_lookup_filter, idle_steps_lookup.
  destruct (bool_decide (k ∈ map project_id projects)) eqn:H.
  - apply bool_decide_eq_true in H. destruct (m !! k); simpl; rewrite ?option_guard_True by exact H; reflexivity.
  - apply bool_decide_eq_false in H. destruct (m !! k); simpl; rewrite ?option_guard_False by exact H; reflexivity.
Qed.

(** [syncProjects(projects)]: a listed project keeps its state, or gets an
    idle one stamped with the current time; the state of a project no
    longer listed is dropped. *)
Theorem syncProjects_states (w : World) (projects : list Project) (k : jsstr) :
  let r := run w (syncProjects projects) in
  r.2 = Ok tt /\
  w_states r.1 !! k =
    if bool_decide (k ∈ map project_id projects)
    then match w_states w !! k with
         | Some st => Some st
         | None => Some (createIdleState k (w_clock w))
         end
    else None.
Proof. split; [reflexivity|]. apply sync_map_lookup. Qed.

(** [syncProjects] keeps every state stored under its own project id. *)
Theorem syncProjects_keyed (w : World) (projects : list Project) :
  states_keyed (w_states w) -> states_keyed (w_states (run w (syncProjects projects)).1).
Proof.
  intros Hk k st. cbn [run syncProjects]. simpl. rewrite sync_map_lookup.
  destruct (bool_decide _); [|discriminate].
  destruct (w_states w !! k) as [v|] eqn:Hv; intros [= <-]; [exact (Hk _ _ Hv)|reflexivity].
Qed.

Lemma syncProjects_keyed_witness :
  states_keyed (w_states (run (demo_world true true false) (syncProjects [demo_project])).1).
Proof. apply syncProjects_keyed. apply map_Forall_empty. Defined.

(** [getState(projectId)] answers from the state map; the idle state it
    creates for an unknown project is stored, so a second call returns the
    same state and changes nothing. *)
Theorem getState_second_call (w : World) (pid : jsstr) :
  let r := run w (getState pid) in
  run r.1 (getState pid) = r.
Proof.
  unfold getState. simpl. destruct (w_states w !! pid) as [st|] eqn:Hs; simpl.
  - rewrite Hs. reflexivity.
  - rewrite lookup_insert_eq. reflexivity.
Qed.

(** One unreadable row of [run_status] makes [loadPersistedStates] reject
    with the schema error, leaving the state map (and all else) as it was. *)
Theorem load_rejects_unreadable_row (w : World) (projects : list Project) (row : RunStatusRow) :
  In row (w_db_status w) -> fromRunStatusRow row = None ->
  run w (loadPersistedStates projects) = (w, Err ESchema).
Proof.
  intros Hin Hr. unfold loadPersistedStates.
  rewrite run_bind, run_await, RunServiceFacts.run_listRunStatuses, (TableFacts.map_opt_none _ _ _ Hin Hr). reflexivity.
Qed.

Lemma load_rejects_unreadable_row_witness :
  let row := mkRunStatusRow (s2u "p1") (s2u "paused") None None None None None None None None 1%Z in
  let w := upd_db_status (fun _ => [row]) (demo_world true true false) in
  run w (loadPersistedStates [demo_project]) = (w, Err ESchema).
Proof.
  intros row w. apply (load_rejects_unreadable_row w [demo_project] row); [left; reflexivity|].
  subst row. vm_compute. reflexivity.
Defined.

(** [rememberConfiguration] for a configuration whose project is not in the
    [projects] table rejects with the foreign-key error before it touches the
    state: nothing is stored, persisted or published. *)
Theorem remember_unknown_project (w : World) (project : Project) (config : RunConfig) :
  rc_projectId config ∉ w_db_projects w ->
  run w (rememberConfiguration project config) = (w, Err EForeignKey).
Proof.
  intros Hfk. unfold rememberConfiguration. rewrite run_bind, run_await.
  unfold saveRunConfig. rewrite run_bind. cbn [run yield]. rewrite run_bind, run_gets.
  rewrite (bool_decide_eq_false_2 _ Hfk). reflexivity.
Qed.

Lemma remember_unknown_project_witness :
  let config := mkRunConfig (s2u "r1") (s2u "p9") (s2u "npm") [] [] None None 5%Z in
  run (demo_world true true false) (rememberConfiguration demo_project config) =
    (demo_world true true false, Err EForeignKey).
Proof.
  intros config. apply remember_unknown_project. subst config. vm_compute. intros H.
  apply list_elem_of_In in H. simpl in H. destruct H as [H|[]]. discriminate H.
Defined.

(** With no command in the overrides nor in the state, [start] reads the
    stored runs; one unreadable run of the project makes it reject with the
    schema error before anything is persisted, published or spawned. *)
Theorem start_rejects_unreadable_run (w : World) (project : Project) (o : RunOverrides) (st : RunState)
    (row : RunRow) :
  w_states w !! project_id project = Some st -> is_active (st_status st) = false ->
  truthy_str (ov_command o) = false -> truthy_str (st_lastCommand st) = false ->
  In row (w_db_runs w) -> row_project_id row = project_id project -> fromRunRow row = None ->
  run w (start project o) = (w, Err ESchema).
Proof.
  intros Hs Ha Ho Hc Hin Hp Hr.
  assert (Hm : map_opt fromRunRow (select_runs (project_id project) (w_db_runs w)) = None)
    by exact (TableFacts.map_opt_none _ _ _ (select_runs_In _ _ _ Hin Hp) Hr).
  assert (Hsaved : run w (resolve_saved project o) = (w, Err ESchema)).
  { unfold resolve_saved. rewrite run_bind, (run_getState_present _ _ _ Hs). cbv beta iota.
    destruct (st_lastCommand st) as [[|y d]|]; [| discriminate |];
    rewrite run_bind, run_await, run_listRuns, Hm; reflexivity. }
  assert (Hres : run w (resolveCommand project o) = (w, Err ESchema)).
  { unfold resolveCommand. destruct (ov_command o) as [[|x c]|]; [exact Hsaved|discriminate|exact Hsaved]. }
  unfold start. rewrite run_bind, (run_getState_present _ _ _ Hs). cbv beta iota. rewrite Ha.
  rewrite run_bind, run_await, Hres. reflexivity.
Qed.

Lemma start_rejects_unreadable_run_witness :
  let row := mkRunRow (s2u "r1") (s2u "p1") (s2u "npm") (Some (s2u "[1]")) None None None 1%Z in
  let st0 := createIdleState (s2u "p1") 0 in
  let w := upd_db_runs (fun _ => [row]) (upd_states (<[s2u "p1" := st0]>) (demo_world true true false)) in
  run w (start demo_project no_overrides) = (w, Err ESchema).
Proof.
  intros row st0 w. apply (start_rejects_unreadable_run w demo_project no_overrides st0 row).
  - subst w st0. vm_compute. reflexivity.
  - reflexivity.
  - reflexivity.
  - reflexivity.
  - subst w. left. reflexivity.
  - reflexivity.
  - subst row. vm_compute. reflexivity.
Defined.

Lemma run_stop_some (w : World) (pid : jsstr) (rp : RunProcess) :
  w_processes w !! pid = Some rp ->
  exists tr, run w (stop pid) =
    (upd_log (fun l => l ++ tr)
       (upd_processes (<[pid := mkRunProcess (rp_tabId rp) true (rp_type rp) (rp_pty rp)]>) w), Ok tt).
Proof.
  intros Hp. unfold stop. rewrite run_bind, run_gets. cbv beta iota. rewrite Hp.
  rewrite run_bind, run_modify. cbv beta iota. rewrite run_await. unfold run_kill.
  rewrite run_bind, run_await, run_gets. cbv beta iota. rewrite run_catch. unfold pty_kill.
  destruct w as [a1 a2 a3 a4 a5 a6 a7 a8 a9 a10 a11 a12 a13 a14 a15 a16 a17]. cbn.
  destruct (rp_type rp), a12; cbn;
  (destruct (a8 !! rp_pty rp) as [x|] eqn:Hx; cbn;
   [destruct (pty_backend x) eqn:Hb; cbn; [destruct (pty_kill_throws x) eqn:Hkt|]|]);
  cbn; rewrite ?Hx; cbn; rewrite ?Hb; cbn; rewrite ?Hkt; cbn;
  (eexists; unfold upd_log, upd_processes; cbn; rewrite <- ?app_assoc; reflexivity).
Qed.

(** [stop(projectId)] and then the exit of the run's process: the run ends
    [stopped] whatever the exit code, no failure toast is raised, and the
    process is unregistered. *)
Theorem stop_then_exit_stopped (w : World) (project : Project) (command : RunCommand) (tabId : jsstr)
    (code : option Z) (rp : RunProcess) :
  states_keyed (w_states w) ->
  w_processes w !! project_id project = Some rp ->
  let w1 := (run w (stop (project_id project))).1 in
  let w2 := (run w1 (onExit_handler project command tabId code)).1 in
  option_map st_status (w_states w2 !! project_id project) = Some Stopped /\
  w_toast w2 = w_toast w /\
  w_processes w2 !! project_id project = None.
Proof.
  intros Hk Hp w1 w2. subst w1 w2.
  destruct (run_stop_some w _ rp Hp) as [tr ->]. cbn [fst].
  unfold onExit_handler. cbn. rewrite lookup_insert_eq. cbn.
  destruct (w_states w !! project_id project) as [cur|] eqn:Hs; cbn.
  - assert (Hid : st_projectId cur = project_id project) by apply (Hk _ _ Hs).
    destruct (cmd_runId command) as [[|x r]|]; cbn; rewrite Hid, lookup_insert_eq, lookup_delete_eq;
    (split; [reflexivity|split; reflexivity]).
  - destruct (cmd_runId command) as [[|x r]|]; cbn; rewrite lookup_insert_eq, lookup_delete_eq;
    (split; [reflexivity|split; reflexivity]).
Qed.

Lemma stop_then_exit_stopped_witness :
  let rp := mkRunProcess (uuid_of 1) false PtyType 2 in
  let w := upd_processes (<[s2u "p1" := rp]>) (demo_world true true false) in
  let w1 := (run w (stop (project_id demo_project))).1 in
  let w2 := (run w1 (onExit_handler demo_project (mkRunCommand (s2u "npm") [] [] (s2u "/w/demo") None)
                       (uuid_of 1) (Some 1%Z))).1 in
  option_map st_status (w_states w2 !! project_id demo_project) = Some Stopped /\
  w_toast w2 = w_toast w /\
  w_processes w2 !! project_id demo_project = None.
Proof.
  intros rp w. apply (stop_then_exit_stopped w demo_project _ _ _ rp); [apply map_Forall_empty|reflexivity].
Defined.

End ServiceMoreFacts.

Module TerminalMoreFacts.
Import ProgFacts.

(** A keystroke in a tab's terminal: written to the process, or a caught
    and logged write failure, or nothing once the input is unwired; the
    listener never throws and changes nothing but the log. *)
Theorem terminal_input_never_throws (w : World) (tab : TerminalTab) (data : jsstr) :
  (run w (terminal_input tab data)).2 = Ok tt /\
  exists tr, (run w (terminal_input tab data)).1 = upd_log (fun l => l ++ tr) w /\
    (tr = [EvWrite (tab_pty tab) data] \/ tr = [EvConsoleError] \/
     (tr = [] /\ forall t, w_terms w !! tab_terminal tab = Some t -> term_input_wired t = false)).
Proof.
  assert (Hnil : upd_log (fun l => l ++ []) w = w) by (destruct w; unfold upd_log; cbn; rewrite app_nil_r; reflexivity).
  unfold terminal_input. rewrite run_bind, run_gets. cbv beta iota.
  destruct (w_terms w !! tab_terminal tab) as [t|] eqn:Ht.
  - destruct (term_input_wired t) eqn:Hw.
    + rewrite run_catch. unfold pty_write. rewrite run_bind, run_gets. cbv beta iota.
      destruct (w_ptys w !! tab_pty tab) as [x|]; [destruct (pty_backend x); [destruct (pty_write_throws x)|]|];
      cbn; (split; [reflexivity|]); eexists; (split; [reflexivity|]);
      first [left; reflexivity|right; left; reflexivity].
    + cbn. split; [reflexivity|]. exists []. split; [symmetry; exact Hnil|].
      right; right. split; [reflexivity|]. intros t' [= <-]. exact Hw.
  - cbn. split; [reflexivity|]. exists []. split; [symmetry; exact Hnil|].
    right; right. split; [reflexivity|]. intros t' [=].
Qed.

Lemma run_dispose_one (w : World) (d : Disposable) :
  run w (dispose_one d) = ((run w (dispose_one d)).1, Ok tt).
Proof. destruct d; reflexivity. Qed.

Lemma run_dispose_all' (w : World) (ds : list Disposable) :
  run w (dispose_all ds) = ((run w (dispose_all ds)).1, Ok tt).
Proof.
  revert w. induction ds as [|d ds IH]; intros w; [reflexivity|].
  cbn [dispose_all]. rewrite run_bind, run_dispose_one. apply IH.
Qed.

Lemma dispose_all_cons (w : World) (d : Disposable) (ds : list Disposable) :
  (run w (dispose_all (d :: ds))).1 = (run (run w (dispose_one d)).1 (dispose_all ds)).1.
Proof. cbn [dispose_all]. rewrite run_bind, run_dispose_one. reflexivity. Qed.

Section Dispose.
Variables (R P : World -> Prop) (ds : list Disposable).
Hypothesis R_step : forall d w, In d ds -> R w -> R (run w (dispose_one d)).1.
Hypothesis P_step : forall d w, In d ds -> R w -> P w -> P (run w (dispose_one d)).1.

Lemma dispose_all_preserve (l : list Disposable) (w : World) :
  incl l ds -> R w -> P w -> R (run w (dispose_all l)).1 /\ P (run w (dispose_all l)).1.
Proof.
  revert w. induction l as [|d l IH]; intros w Hl Hr Hp; [split; assumption|].
  rewrite dispose_all_cons. apply IH; [intros x Hx; apply Hl; right; exact Hx| |].
  - apply R_step; [apply Hl; left; reflexivity|exact Hr].
  - apply P_step; [apply Hl; left; reflexivity|exact Hr|exact Hp].
Qed.

Lemma dispose_all_establish (d0 : Disposable) (l : list Disposable) (w : World) :
  incl l ds -> In d0 l -> R w -> (forall w, R w -> P (run w (dispose_one d0)).1) ->
  P (run w (dispose_all l)).1.
Proof.
  intros Hl Hin Hr H0. revert w Hr. induction l as [|d l IH]; intros w Hr; [destruct Hin|].
  rewrite dispose_all_cons.
  assert (Hr' : R (run w (dispose_one d)).1) by (apply R_step; [apply Hl; left; reflexivity|exact Hr]).
  destruct Hin as [<-|Hin].
  - apply (dispose_all_preserve l); [intros x Hx; apply Hl; right; exact Hx|exact Hr'|apply H0, Hr].
  - apply IH; [intros x Hx; apply Hl; right; exact Hx|exact Hin|exact Hr'].
Qed.

End Dispose.

(** The kill of [dispose], with its [catch]: only the log changes. *)
Lemma run_caught_kill (w : World) (p : nat) (e : Event) :
  exists tr, run w (catch (pty_kill p None) (fun _ => log e)) = (upd_log (fun l => l ++ tr) w, Ok tt).
Proof.
  unfold pty_kill. rewrite run_catch, run_bind, run_gets. cbv beta iota.
  destruct (w_ptys w !! p) as [x|]; [destruct (pty_backend x); [destruct (pty_kill_throws x)|]|];
  cbn; eexists; reflexivity.
Qed.

Lemma terminal_dispose_fields (w : World) (id : jsstr) (tab : TerminalTab) :
  w_tabs w !! id = Some tab ->
  let w1 := (run w (dispose_all (tab_disposables tab))).1 in
  let w' := (run w (terminal_dispose id)).1 in
  w_ptys w' = w_ptys w1 /\
  w_terms w' = match w_terms w1 !! tab_terminal tab with
               | Some x => <[tab_terminal tab := mkTerm (term_input_wired x) (term_output x) true]> (w_terms w1)
               | None => w_terms w1
               end.
Proof.
  intros Ht w1 w'. subst w1 w'. unfold terminal_dispose. rewrite run_bind, run_gets. cbv beta iota. rewrite Ht.
  rewrite run_bind, run_dispose_all'. cbv beta iota. rewrite run_bind.
  destruct (run_caught_kill (run w (dispose_all (tab_disposables tab))).1 (tab_pty tab) EvConsoleError) as [tr ->].
  cbv beta iota. set (w1 := (run w (dispose_all (tab_disposables tab))).1).
  destruct w1 as [a1 a2 a3 a4 a5 a6 a7 a8 a9 a10 a11 a12 a13 a14 a15 a16 a17]. cbn.
  destruct (a9 !! tab_terminal tab); split; reflexivity.
Qed.

Lemma dispose_one_terms (w : World) (d : Disposable) (t : nat) :
  (forall x, w_terms w !! t = Some x -> term_input_wired x = false) ->
  forall x, w_terms (run w (dispose_one d)).1 !! t = Some x -> term_input_wired x = false.
Proof.
  intros H. destruct d as [p lid|t'|p lid|p]; cbn; try exact H.
  destruct (w_terms w !! t') as [y|] eqn:Hy; [|exact H].
  destruct (decide (t' = t)) as [->|Hne].
  - rewrite lookup_insert_eq. intros x [= <-]. reflexivity.
  - rewrite lookup_insert_ne by exact Hne. exact H.
Qed.


(** After [dispose(id)], keystrokes in the tab's terminal reach nothing: its
    [onData] listener was unwired, so the process is not written to and the
    world does not change. *)
Theorem dispose_then_input_ignored (w : World) (id : jsstr) (tab : TerminalTab) (data : jsstr) :
  w_tabs w !! id = Some tab -> In (DTermData (tab_terminal tab)) (tab_disposables tab) ->
  let w' := (run w (terminal_dispose id)).1 in
  run w' (terminal_input tab data) = (w', Ok tt).
Proof.
  intros Ht Hin w'. subst w'.
  destruct (terminal_dispose_fields w id tab Ht) as [_ Hterms].
  assert (Hoff : forall x, w_terms (run w (dispose_all (tab_disposables tab))).1 !! tab_terminal tab = Some x ->
                   term_input_wired x = false).
  { refine (dispose_all_establish (fun _ => True)
             (fun w => forall x, w_terms w !! tab_terminal tab = Some x -> term_input_wired x = false)
             (tab_disposables tab) (fun _ _ _ _ => I) (fun d w0 _ _ Hp => dispose_one_terms w0 d _ Hp)
             (DTermData (tab_terminal tab)) (tab_disposables tab) w (incl_refl _) Hin I _).
    intros w0 _ x. cbn. destruct (w_terms w0 !! tab_terminal tab) as [y|] eqn:Hy; [|congruence].
    rewrite lookup_insert_eq. intros [= <-]. reflexivity. }
  unfold terminal_input. rewrite run_bind, run_gets. cbv beta iota. rewrite Hterms.
  destruct (w_terms (run w (dispose_all (tab_disposables tab))).1 !! tab_terminal tab) as [y|] eqn:Hy.
  - rewrite lookup_insert_eq. cbn. rewrite (Hoff y eq_refl). reflexivity.
  - rewrite Hy. reflexivity.
Qed.

Lemma dispose_one_ptys (w : World) (d : Disposable) (q : nat) :
  exists f, (forall x, pty_backend (f x) = pty_backend x /\
                       (pty_close_wired x = false -> pty_close_wired (f x) = false)) /\
    w_ptys (run w (dispose_one d)).1 !! q = option_map f (w_ptys w !! q).
Proof.
  destruct d as [p lid|t|p lid|p]; cbn.
  - destruct (w_ptys w !! p) as [y|] eqn:Hy; [destruct (decide (p = q)) as [->|Hne]|].
    + exists (remove_data_listener lid). split; [intros x; split; [reflexivity|exact id]|].
      rewrite lookup_insert_eq, Hy. reflexivity.
    + exists id. split; [intros x; split; [reflexivity|exact id]|]. rewrite lookup_insert_ne by exact Hne.
      destruct (w_ptys w !! q); reflexivity.
    + exists id. split; [intros x; split; [reflexivity|exact id]|]. destruct (w_ptys w !! q); reflexivity.
  - exists id. split; [intros x; split; [reflexivity|exact id]|]. destruct (w_ptys w !! q); reflexivity.
  - destruct (w_ptys w !! p) as [y|] eqn:Hy; [destruct (decide (p = q)) as [->|Hne]|].
    + exists (remove_exit_listener lid). split; [intros x; split; [reflexivity|exact id]|].
      rewrite lookup_insert_eq, Hy. reflexivity.
    + exists id. split; [intros x; split; [reflexivity|exact id]|]. rewrite lookup_insert_ne by exact Hne.
      destruct (w_ptys w !! q); reflexivity.
    + exists id. split; [intros x; split; [reflexivity|exact id]|]. destruct (w_ptys w !! q); reflexivity.
  - destruct (w_ptys w !! p) as [y|] eqn:Hy; [destruct (decide (p = q)) as [->|Hne]|].
    + exists shell_adapter_dispose. split; [intros x; split; [reflexivity|intros _; reflexivity]|].
      rewrite lookup_insert_eq, Hy. reflexivity.
    + exists id. split; [intros x; split; [reflexivity|exact id]|]. rewrite lookup_insert_ne by exact Hne.
      destruct (w_ptys w !! q); reflexivity.
    + exists id. split; [intros x; split; [reflexivity|exact id]|]. destruct (w_ptys w !! q); reflexivity.
Qed.

(** Closing the tab of a run that fell back to the ShellAdapter unsubscribes
    the adapter's [closeHandler]: when the subprocess then exits, no exit
    listener runs, so the run's final status is never recorded (the world is
    left as it is). *)
Theorem dispose_fallback_ignores_exit (w : World) (id : jsstr) (tab : TerminalTab) (p : nat) (x : Pty)
    (code : option Z) :
  w_tabs w !! id = Some tab -> In (DShellAdapter p) (tab_disposables tab) ->
  w_ptys w !! p = Some x -> pty_backend x = ShellAdapterBackend ->
  let w' := (run w (terminal_dispose id)).1 in
  run w' (process_exit p code) = (w', Ok tt).
Proof.
  intros Ht Hin Hp Hb w'. subst w'.
  destruct (terminal_dispose_fields w id tab Ht) as [Hptys _].
  set (R := fun w0 : World => exists y, w_ptys w0 !! p = Some y /\ pty_backend y = ShellAdapterBackend).
  set (P := fun w0 : World => exists y, w_ptys w0 !! p = Some y /\ pty_backend y = ShellAdapterBackend /\
                                        pty_close_wired y = false).
  assert (HR : forall d w0, In d (tab_disposables tab) -> R w0 -> R (run w0 (dispose_one d)).1).
  { intros d w0 _ [y [Hy Hyb]]. unfold R. destruct (dispose_one_ptys w0 d p) as [f [Hf ->]].
    rewrite Hy. exists (f y). split; [reflexivity|]. rewrite (proj1 (Hf y)). exact Hyb. }
  assert (HPs : forall d w0, In d (tab_disposables tab) -> R w0 -> P w0 -> P (run w0 (dispose_one d)).1).
  { intros d w0 _ _ [y [Hy [Hyb Hyc]]]. unfold P. destruct (dispose_one_ptys w0 d p) as [f [Hf ->]].
    rewrite Hy. exists (f y). split; [reflexivity|]. split; [rewrite (proj1 (Hf y)); exact Hyb|].
    apply (proj2 (Hf y)), Hyc. }
  assert (HP : P (run w (dispose_all (tab_disposables tab))).1).
  { refine (dispose_all_establish R P (tab_disposables tab) HR HPs (DShellAdapter p) (tab_disposables tab) w
              (incl_refl _) Hin _ _).
    - exists x. split; assumption.
    - intros w0 [y [Hy Hyb]]. unfold P. cbn. rewrite Hy, lookup_insert_eq.
      exists (shell_adapter_dispose y). split; [reflexivity|]. split; [exact Hyb|reflexivity]. }
  destruct HP as [y [Hy [Hyb Hyc]]].
  unfold process_exit. rewrite run_bind, run_gets. cbv beta iota. rewrite Hptys, Hy, Hyb, Hyc. reflexivity.
Qed.

(** When the process factory throws, [createTabWithProcess] rejects with the
    spawn error after [createTerminal] already ran: no tab is registered and
    no process is added, but the fresh xterm terminal stays behind, never
    wired and never disposed. *)
Theorem createRunTab_spawn_failure (w : World) (projectId title command cwd : jsstr) (args : list jsstr)
    (override : bool) :
  (if override then w_shell_spawn_ok w else w_pty_spawn_ok w) = false ->
  let r := run w (createRunTab projectId title command args cwd override) in
  r.2 = Err (ESpawn (if override then ShellAdapterBackend else NativePty)) /\
  w_tabs r.1 = w_tabs w /\ w_ptys r.1 = w_ptys w /\
  w_terms r.1 = <[w_next w := mkTerm false [] false]> (w_terms w).
Proof.
  intros Hok r. subst r.
  destruct w; destruct override; cbn in Hok; rewrite Hok; cbn; auto.
Qed.

Lemma createRunTab_spawn_failure_witness :
  let r := run (demo_world false true false)
             (createRunTab (s2u "p1") (s2u "Demo") (s2u "npm") [s2u "run"] (s2u "/w/demo") false) in
  r.2 = Err (ESpawn NativePty) /\
  w_tabs r.1 = w_tabs (demo_world false true false) /\ w_ptys r.1 = w_ptys (demo_world false true false) /\
  w_terms r.1 = <[w_next (demo_world false true false) := mkTerm false [] false]>
                  (w_terms (demo_world false true false)).
Proof.
  exact (createRunTab_spawn_failure (demo_world false true false) (s2u "p1") (s2u "Demo") (s2u "npm")
           (s2u "/w/demo") [s2u "run"] false eq_refl).
Defined.

Lemma dispose_then_input_ignored_witness :
  let w := (run (demo_world true true false) (start demo_project npm_overrides)).1 in
  let tab := match w_tabs w !! uuid_of 1 with
             | Some t => t | None => mkTab [] [] [] [] [] [] 0 0 [] RunTab end in
  w_tabs w !! uuid_of 1 = Some tab /\
  let w' := (run w (terminal_dispose (uuid_of 1))).1 in
  run w' (terminal_input tab (s2u "q")) = (w', Ok tt).
Proof.
  intros w tab. split; [vm_compute; reflexivity|].
  apply (dispose_then_input_ignored w (uuid_of 1) tab (s2u "q")); [vm_compute; reflexivity|vm_compute; auto 10].
Defined.

Lemma dispose_fallback_ignores_exit_witness :
  let w := (run (demo_world false true false) (start demo_project npm_overrides)).1 in
  let tab := match w_tabs w !! uuid_of 3 with
             | Some t => t | None => mkTab [] [] [] [] [] [] 0 0 [] RunTab end in
  let x := match w_ptys w !! 4 with
           | Some x => x | None => mkPty NativePty [] [] false false false end in
  let w' := (run w (terminal_dispose (uuid_of 3))).1 in
  run w' (process_exit 4 (Some 0%Z)) = (w', Ok tt).
Proof.
  intros w tab x.
  apply (dispose_fallback_ignores_exit w (uuid_of 3) tab 4 x (Some 0%Z));
    [vm_compute; reflexivity|vm_compute; auto 10|vm_compute; reflexivity|vm_compute; reflexivity].
Defined.

End TerminalMoreFacts.
